(** * Velero plugin for WebDAV: the object store adapter

    A shallow embedding of [internal/plugin/objectstoreplugin.go] and the
    properties of its path mapping, listing and deletion logic.

    Conventions of the embedding.
    - Go strings are byte sequences: [string] (a list of [ascii]).
    - [fmt.Sprintf] with only [%s] verbs is string concatenation ([+:+]).
    - A Go [error] result is [option Error], [None] standing for [nil]; a
      result [(v, error)] is a pair.
    - The WebDAV server reached through [gowebdav.Client] is an external
      collaborator: it is a value of an abstract type [Server] with the
      operations of the class [Transport].  Operations that change the
      server return the new server next to their error.
    - Calls to the logger have no influence on any result and are left out.
    - [AddDirsWithCommonPrefixes] and [GetAllFiles] recurse over whatever
      the server answers, so they take a recursion budget and return
      [None] when it is exhausted; the theorems give a budget that is
      enough for every finite directory tree. *)

From Stdlib Require Import ZArith Lia List Bool Ascii String.
From stdpp Require Import base gmap strings.
Import ListNotations.

Local Open Scope Z_scope.

(** ** The part of Go's [strings] package that the plugin uses *)

Module GoStrings.

(** [strings.HasPrefix(s, prefix)] *)
Fixpoint HasPrefix (s pre : string) {struct pre} : bool :=
  match pre, s with
  | EmptyString, _ => true
  | String _ _, EmptyString => false
  | String x pre', String y s' => Ascii.eqb x y && HasPrefix s' pre'
  end.

(** [s[n:]] for [n <= len(s)] *)
Fixpoint drop (n : nat) (s : string) : string :=
  match n, s with
  | O, _ => s
  | S n', String _ s' => drop n' s'
  | S _, EmptyString => EmptyString
  end.

(** [strings.CutPrefix(s, prefix)]: [(s[len(prefix):], true)] when [s]
    starts with [prefix] and [(s, false)] otherwise. *)
Definition CutPrefix (s pre : string) : string * bool :=
  if HasPrefix s pre then (drop (String.length pre) s, true) else (s, false).

(** [strings.HasSuffix(s, suffix)]:
    [len(s) >= len(suffix) && s[len(s)-len(suffix):] == suffix]. *)
Definition HasSuffix (s suf : string) : bool :=
  (String.length suf <=? String.length s)%nat
  && String.eqb (drop (String.length s - String.length suf) s) suf.

(** [strings.LastIndex(s, substr)]: the index of the last instance of
    [substr] in [s], or [-1]; [len(s)] when [substr] is empty. *)
Fixpoint LastIndex (s sep : string) : Z :=
  match s with
  | EmptyString => if HasPrefix EmptyString sep then 0 else -1
  | String _ s' =>
      let r := LastIndex s' sep in
      if 0 <=? r then r + 1
      else if HasPrefix s sep then 0 else -1
  end.

(** [s[:hi]] and [s[lo:]] with Go's [int] indices. *)
Definition sliceTo (s : string) (hi : Z) : string :=
  String.substring 0 (Z.to_nat hi) s.
Definition sliceFrom (s : string) (lo : Z) : string :=
  drop (Z.to_nat lo) s.

(** [strings.ToUpper], on the ASCII letters. *)
Definition upperAscii (c : ascii) : ascii :=
  let n := nat_of_ascii c in
  if ((97 <=? n) && (n <=? 122))%nat then ascii_of_nat (n - 32) else c.
Fixpoint ToUpper (s : string) : string :=
  match s with
  | EmptyString => EmptyString
  | String c s' => String (upperAscii c) (ToUpper s')
  end.

End GoStrings.

Import GoStrings.

(** ** Data model *)

(** [os.FileInfo], of which the plugin reads [Name()] and [IsDir()]. *)
Record FileInfo := mkFileInfo { Name : string; IsDir : bool }.

(** [type WebDAVObjectStore struct] (without the logger). *)
Record WebDAVObjectStore := mkStore {
  root : string;
  user : string;
  password : string;
  bucketsDir : string; (* bucketsDir ends in / or is empty *)
  logLevel : string;
  delimiter : string
}.

(** [NewWebDAVObjectStore]: all fields have Go's zero value. *)
Definition NewWebDAVObjectStore : WebDAVObjectStore :=
  mkStore EmptyString EmptyString EmptyString EmptyString EmptyString
          EmptyString.

Definition PrintInfos (w : WebDAVObjectStore) : bool :=
  String.eqb (logLevel w) "INFO" || String.eqb (logLevel w) "DEBUG".

Definition PrintWarnings (w : WebDAVObjectStore) : bool :=
  String.eqb (logLevel w) EmptyString || String.eqb (logLevel w) "WARN"
  || String.eqb (logLevel w) "INFO" || String.eqb (logLevel w) "DEBUG".

(** [config[k]] on a Go [map[string]string]: the zero value (the empty string) for a
    missing key. *)
Definition configGet (config : gmap string string) (k : string) : string :=
  default EmptyString (config !! k).

(** [Init], a method of the store: the store after the call; the returned
    error is always [nil]. *)
Definition Init (w : WebDAVObjectStore) (config : gmap string string)
  : WebDAVObjectStore :=
  let root := configGet config "root" in
  let user := configGet config "user" in
  let password := configGet config "webDAVPassword" in
  let bucketsDir := configGet config "bucketsDir" in
  let logLevel := configGet config "logLevel" in
  let delimiter := configGet config "delimiter" in
  let delimiter := if String.eqb delimiter EmptyString then "/" else delimiter in
  let bucketsDir :=
    if negb (String.eqb bucketsDir EmptyString) && negb (HasPrefix bucketsDir "/")
    then bucketsDir +:+ "/"
    else bucketsDir in
  mkStore root user password bucketsDir (ToUpper logLevel) delimiter.

(** [SplitPathToDirAndFilename] *)
Definition SplitPathToDirAndFilename (path : string) : string * string :=
  let lastSeparatorI := LastIndex path "/" in
  if negb (lastSeparatorI =? -1)
  then (sliceTo path lastSeparatorI, sliceFrom path (lastSeparatorI + 1))
  else (EmptyString, path).

(** The storage path of an object,
    [fmt.Sprintf("%s%s%s%s", w.bucketsDir, bucket, w.delimiter, key)]. *)
Definition toStoragePath (w : WebDAVObjectStore) (bucket key : string) : string :=
  bucketsDir w +:+ bucket +:+ delimiter w +:+ key.

(** The native separator occurs in [s]. *)
Definition hasSeparator (s : string) : Prop := exists a b, s = a +:+ "/" +:+ b.

(** The values [prefixToUse], [prefixToCut] and [rootDir] that
    [ListCommonPrefixes] computes, and the [path] that [ListObjects]
    lists. *)
Definition normalizedPrefix (prefix delimiter : string) : string :=
  if negb (String.eqb prefix EmptyString) && negb (HasSuffix prefix delimiter)
  then prefix +:+ delimiter
  else prefix.

Definition cutPrefixOf (w : WebDAVObjectStore) (bucket delimiter : string) : string :=
  bucketsDir w +:+ bucket +:+ delimiter.

Definition listingRoot (w : WebDAVObjectStore) (bucket prefix delimiter : string)
  : string :=
  if String.eqb delimiter "/"
  then bucketsDir w +:+ bucket +:+ "/" +:+ normalizedPrefix prefix delimiter
  else bucket.

Definition objectsRoot (w : WebDAVObjectStore) (bucket prefix : string) : string :=
  bucketsDir w +:+ bucket +:+ delimiter w +:+ normalizedPrefix prefix (delimiter w).

(** ** The transport

    What the plugin asks of [gowebdav]: the methods of [gowebdav.Client]
    it calls, [gowebdav.IsErrNotFound] and [errors.New].  [Connect] gets
    the root, user and password the client was made with
    ([gowebdav.NewClient]). File contents are strings. *)

Class Transport (Error Server : Type) := {
  IsErrNotFound : Error -> bool;
  errorsNew : string -> Error;
  Connect : Server -> string -> string -> string -> option Error;
  ReadDir : Server -> string -> list FileInfo * option Error;
  MkdirAll : Server -> string -> Server * option Error;
  WriteStream : Server -> string -> string -> Server * option Error;
  ReadStream : Server -> string -> string * option Error;
  Remove : Server -> string -> Server * option Error
}.

(** ** The operations of the adapter *)

Section Operations.

Context {Error Server : Type} {T : Transport Error Server}.

Definition PutObject (w : WebDAVObjectStore) (srv : Server)
    (bucket key body : string) : Server * option Error :=
  let path := toStoragePath w bucket key in
  let '(dir, _) := SplitPathToDirAndFilename path in
  match Connect srv (root w) (user w) (password w) with
  | Some err => (srv, Some err)
  | None =>
      let '(srv1, err) := MkdirAll srv dir in
      match err with
      | Some e => (srv1, Some e)
      | None => WriteStream srv1 path body
      end
  end.

Definition ObjectExists (w : WebDAVObjectStore) (srv : Server)
    (bucket key : string) : bool * option Error :=
  let path := toStoragePath w bucket key in
  let '(dir, name) := SplitPathToDirAndFilename path in
  match Connect srv (root w) (user w) (password w) with
  | Some err => (false, Some err)
  | None =>
      let '(files, err) := ReadDir srv dir in
      match err with
      | Some e => if IsErrNotFound e then (false, None) else (false, Some e)
      | None =>
          (existsb (fun file => negb (IsDir file) && String.eqb (Name file) name)
                   files, None)
      end
  end.

Definition GetObject (w : WebDAVObjectStore) (srv : Server)
    (bucket key : string) : string * option Error :=
  let path := toStoragePath w bucket key in
  match Connect srv (root w) (user w) (password w) with
  | Some err => (EmptyString, Some err)
  | None => ReadStream srv path
  end.

(** The result of a traversal that may exhaust its recursion budget. *)
Definition walk (A : Type) : Type := option (A * option Error).

(** The [for] loop of [AddDirsWithCommonPrefixes] over [inputDirs], with
    the loop variables [outputAccumulatedDirs] and [allFilesDirs];
    [self] is the recursive call on a subdirectory. *)
Fixpoint addDirsLoop (srv : Server)
    (self : list string -> list FileInfo -> string -> walk (list string * bool))
    (completePrefix prefixToCut parentDirName : string)
    (outputAccumulatedDirs : list string) (allFilesDirs : bool)
    (inputDirs : list FileInfo) : walk (list string * bool) :=
  match inputDirs with
  | [] => Some ((outputAccumulatedDirs, allFilesDirs), None)
  | currentFile :: rest =>
      let next := addDirsLoop srv self completePrefix prefixToCut parentDirName in
      let completePath := parentDirName +:+ Name currentFile +:+ "/" in
      if negb (HasPrefix completePath completePrefix)
      then next outputAccumulatedDirs allFilesDirs rest
      else
        let '(commonPrefix, found) := CutPrefix completePath prefixToCut in
        if negb found
        then next outputAccumulatedDirs allFilesDirs rest
        else if IsDir currentFile then
          let '(subDirs, err) := ReadDir srv completePath in
          match err with
          | Some e => Some ((outputAccumulatedDirs, allFilesDirs), Some e)
          | None =>
              match self outputAccumulatedDirs subDirs completePath with
              | None => None
              | Some ((out, _), Some e) => Some ((out, allFilesDirs), Some e)
              | Some ((out, allSubfilesDirs), None) =>
                  if negb allSubfilesDirs
                  then
                    (* only add directory if it contains at least one file
                       (that is not a directory) *)
                    next (out ++ [commonPrefix]) allFilesDirs rest
                  else next out allFilesDirs rest
              end
          end
        else next outputAccumulatedDirs false rest
  end.

Fixpoint AddDirsWithCommonPrefixes (fuel : nat) (srv : Server)
    (accumulatedDirs : list string) (inputDirs : list FileInfo)
    (completePrefix prefixToCut parentDirName : string)
    : walk (list string * bool) :=
  match fuel with
  | O => None
  | S fuel' =>
      addDirsLoop srv
        (fun acc subDirs completePath =>
           AddDirsWithCommonPrefixes fuel' srv acc subDirs completePrefix
                                     prefixToCut completePath)
        completePrefix prefixToCut parentDirName accumulatedDirs true inputDirs
  end.

(** The [for] loop of [GetAllFiles]. *)
Fixpoint getAllFilesLoop (srv : Server)
    (self : list string -> list FileInfo -> string -> walk (list string))
    (parentDirName : string) (outputAccumulatedFiles : list string)
    (inputDirs : list FileInfo) : walk (list string) :=
  match inputDirs with
  | [] => Some (outputAccumulatedFiles, None)
  | currentFile :: rest =>
      let completePath := parentDirName +:+ Name currentFile +:+ "/" in
      if IsDir currentFile then
        let '(subDirs, err) := ReadDir srv completePath in
        match err with
        | Some e => Some (outputAccumulatedFiles, Some e)
        | None =>
            match self outputAccumulatedFiles subDirs completePath with
            | None => None
            | Some (out, Some e) => Some (out, Some e)
            | Some (out, None) => getAllFilesLoop srv self parentDirName out rest
            end
        end
      else
        getAllFilesLoop srv self parentDirName
                        (outputAccumulatedFiles ++ [completePath]) rest
  end.

Fixpoint GetAllFiles (fuel : nat) (srv : Server)
    (accumulatedFiles : list string) (inputDirs : list FileInfo)
    (parentDirName : string) : walk (list string) :=
  match fuel with
  | O => None
  | S fuel' =>
      getAllFilesLoop srv
        (fun acc subDirs completePath =>
           GetAllFiles fuel' srv acc subDirs completePath)
        parentDirName accumulatedFiles inputDirs
  end.

(** The body of the [for] loop of [DeterminePrefixesFromFilesWithDelimiter]
    on the loop state [(isPrefixPresent, prefixes)]; a missing key of the
    Go map reads as [false]. *)
Definition determineStep (delimiter prefixToCut : string)
    (st : gmap string bool * list string) (currentFile : string)
    : gmap string bool * list string :=
  let '(isPrefixPresent, prefixes) := st in
  let '(commonPrefix, found) := CutPrefix currentFile prefixToCut in
  if negb found then st
  else
    let lastDelimiterI := LastIndex commonPrefix delimiter in
    if lastDelimiterI =? -1 then st
    else
      let currentPrefix := sliceTo commonPrefix lastDelimiterI in
      let isCurrentPrefixPresent :=
        default false (isPrefixPresent !! currentPrefix) in
      if negb isCurrentPrefixPresent
      then (<[currentPrefix := true]> isPrefixPresent, prefixes ++ [currentPrefix])
      else st.

Definition DeterminePrefixesFromFilesWithDelimiter (fileList : list string)
    (delimiter prefixToCut : string) : list string :=
  snd (fold_left (determineStep delimiter prefixToCut) fileList (∅, [])).

Definition ListCommonPrefixes (fuel : nat) (w : WebDAVObjectStore)
    (srv : Server) (bucket prefix delimiter : string) : walk (list string) :=
  (* prefix has to either be the empty string or end with /
     fix this if not already the case *)
  let prefixToUse :=
    if negb (String.eqb prefix EmptyString) && negb (HasSuffix prefix delimiter)
    then prefix +:+ delimiter
    else prefix in
  let prefixToCut := bucketsDir w +:+ bucket +:+ delimiter in
  let rootDir :=
    if String.eqb delimiter "/"
    then bucketsDir w +:+ bucket +:+ "/" +:+ prefixToUse
    else bucket in
  let dirs : list string := [] in
  match Connect srv (root w) (user w) (password w) with
  | Some err => Some (dirs, Some err)
  | None =>
      let '(rootSubdirs, err) := ReadDir srv rootDir in
      match err with
      | Some e =>
          if IsErrNotFound e
          then
            (* root directory does not currently exists
               this is okay, we only create a directory when we first put
               a file in it *)
            Some (dirs, None)
          else Some (dirs, Some e)
      | None =>
          if String.eqb delimiter "/" then
            match AddDirsWithCommonPrefixes fuel srv dirs rootSubdirs rootDir
                                            prefixToCut rootDir with
            | None => None
            | Some ((dirs, _), Some e) => Some (dirs, Some e)
            | Some ((dirs, _), None) => Some (dirs, None)
            end
          else
            match GetAllFiles fuel srv dirs rootSubdirs rootDir with
            | None => None
            | Some (_, Some e) => Some (dirs, Some e)
            | Some (allFiles, None) =>
                Some (DeterminePrefixesFromFilesWithDelimiter
                        allFiles delimiter prefixToCut, None)
            end
      end
  end.

(** The [for] loop of [ListObjects] over [files]. *)
Fixpoint listObjectsLoop (w : WebDAVObjectStore) (path prefixToCut : string)
    (objects : list string) (files : list FileInfo) : list string :=
  match files with
  | [] => objects
  | file :: rest =>
      if negb (IsDir file) then
        let completePath := path +:+ Name file +:+ delimiter w in
        let '(filenameWithoutBucket, found) := CutPrefix completePath prefixToCut in
        if negb found
        then listObjectsLoop w path prefixToCut objects rest
        else listObjectsLoop w path prefixToCut
                             (objects ++ [filenameWithoutBucket]) rest
      else listObjectsLoop w path prefixToCut objects rest
  end.

Definition ListObjects (w : WebDAVObjectStore) (srv : Server)
    (bucket prefix : string) : list string * option Error :=
  let prefixToUse :=
    if negb (String.eqb prefix EmptyString) && negb (HasSuffix prefix (delimiter w))
    then prefix +:+ delimiter w
    else prefix in
  let path := bucketsDir w +:+ bucket +:+ delimiter w +:+ prefixToUse in
  let objects : list string := [] in
  match Connect srv (root w) (user w) (password w) with
  | Some err => (objects, Some err)
  | None =>
      let '(files, err) := ReadDir srv path in
      match err with
      | Some e =>
          if IsErrNotFound e then (objects, None) else (objects, Some e)
      | None =>
          let prefixToCut := bucketsDir w +:+ bucket +:+ delimiter w in
          (listObjectsLoop w path prefixToCut objects files, None)
      end
  end.

Definition DeleteObject (w : WebDAVObjectStore) (srv : Server)
    (bucket key : string) : Server * option Error :=
  let path := toStoragePath w bucket key in
  let '(dir, _) := SplitPathToDirAndFilename path in
  match Connect srv (root w) (user w) (password w) with
  | Some err => (srv, Some err)
  | None =>
      let '(srv1, err) := Remove srv path in
      match err with
      | Some e => (srv1, Some e)
      | None =>
          let '(files, err) := ReadDir srv1 dir in
          match err with
          | Some e => (srv1, Some e)
          | None =>
              if (Z.of_nat (List.length files) =? 0)
              then
                let '(srv2, err) := Remove srv1 dir in
                match err with
                | Some e => (srv2, Some e)
                | None => (srv2, None)
                end
              else (srv1, None)
          end
      end
  end.

Definition CreateSignedURL (w : WebDAVObjectStore) (bucket key : string)
    (ttl : Z) : string * option Error :=
  (EmptyString, Some (errorsNew "CreateSignedURL is not supported for this plugin")).

End Operations.

(** ** Directory trees

    The content of a directory: files and subdirectories, in the order the
    server lists them. *)

#[local] Set Warnings "-register-all".

Inductive node : Type :=
| File (name : string)
| Dir (name : string) (children : list node).

Definition nodeName (n : node) : string :=
  match n with File s => s | Dir s _ => s end.

Definition nodeIsDir (n : node) : bool :=
  match n with File _ => false | Dir _ _ => true end.

(** What [ReadDir] reports about an entry. *)
Definition info (n : node) : FileInfo := mkFileInfo (nodeName n) (nodeIsDir n).

Definition listing (t : list node) : list FileInfo := map info t.

(** Induction on trees, with the hypothesis for every entry of a
    directory. *)
Fixpoint node_ind' (P : node -> Prop)
    (HFile : forall s, P (File s))
    (HDir : forall s cs, Forall P cs -> P (Dir s cs))
    (n : node) {struct n} : P n :=
  match n with
  | File s => HFile s
  | Dir s cs =>
      HDir s cs
        ((fix all (l : list node) : Forall P l :=
            match l with
            | [] => @List.Forall_nil node P
            | c :: l' => @List.Forall_cons node P c l' (node_ind' P HFile HDir c) (all l')
            end) cs)
  end.

(** [serves srv path t]: the server answers [ReadDir] at [path] with the
    entries of [t], and so on for every subdirectory of [t] at its path
    below. *)
Inductive serves {Error Server : Type} {T : Transport Error Server}
    (srv : Server) : string -> list node -> Prop :=
| serves_dir path t :
    ReadDir srv path = (listing t, None) ->
    (forall s cs, In (Dir s cs) t -> serves srv (path +:+ s +:+ "/") cs) ->
    serves srv path t.

(** Nesting depth: [0] for a directory content without subdirectories. *)
Fixpoint depthNode (n : node) : nat :=
  match n with
  | File _ => O
  | Dir _ cs => S (list_max (map depthNode cs))
  end.

Definition depth (t : list node) : nat := list_max (map depthNode t).

(** Everything in and below the entry is a directory. *)
Fixpoint onlyDirsNode (n : node) : bool :=
  match n with
  | File _ => false
  | Dir _ cs => forallb onlyDirsNode cs
  end.

Definition onlyDirs (t : list node) : bool := forallb onlyDirsNode t.

(** Some non-directory object lies in or below the entry. *)
Fixpoint hasObjectNode (n : node) : bool :=
  match n with
  | File _ => true
  | Dir _ cs => existsb hasObjectNode cs
  end.

Definition hasObject (t : list node) : bool := existsb hasObjectNode t.

(** All direct entries are directories. *)
Definition allDirs (t : list node) : bool := forallb nodeIsDir t.

(** [DirAt parent t q cs]: in the directory [parent] with content [t], the
    path [q] names a directory, at any depth below [parent], with
    content [cs]. *)
Inductive DirAt : string -> list node -> string -> list node -> Prop :=
| DirAt_child parent t s cs :
    In (Dir s cs) t -> DirAt parent t (parent +:+ s +:+ "/") cs
| DirAt_below parent t s cs q ds :
    In (Dir s cs) t -> DirAt (parent +:+ s +:+ "/") cs q ds -> DirAt parent t q ds.

(** The common prefixes of a tree, bottom-up: the post-order list of the
    directories that hold at least one direct non-directory entry, each
    as its path without the first [cut] bytes. *)
Fixpoint postOrderPrefixesNode (cut : nat) (parent : string) (n : node) : list string :=
  match n with
  | File _ => []
  | Dir s cs =>
      let p := parent +:+ s +:+ "/" in
      flat_map (postOrderPrefixesNode cut p) cs
        ++ (if forallb nodeIsDir cs then [] else [drop cut p])
  end.

Definition postOrderPrefixes (cut : nat) (parent : string) (t : list node) : list string :=
  flat_map (postOrderPrefixesNode cut parent) t.

(** ** An in-memory server

    A model of a WebDAV server behind [gowebdav], for running the adapter
    on concrete directory trees: a tree of directories and files addressed
    by slash-separated paths (empty segments are ignored, as the client
    normalises slashes), with switches to make operations fail. Removing
    a path that does not exist succeeds, as [gowebdav]'s [Remove] does. *)

Module Mem.

Inductive error : Type :=
| NotFound
| Failure (msg : string).

Record server := mkServer {
  tree : list node;
  offline : bool;                     (* [Connect] fails *)
  unreadable : list (list string);    (* directories [ReadDir] fails on *)
  undeletable : list (list string)    (* paths [Remove] fails on *)
}.

Definition isSlash (c : ascii) : bool := Ascii.eqb c "/"%char.

Fixpoint splitSlash (s : string) : list string :=
  match s with
  | EmptyString => [EmptyString]
  | String c s' =>
      if isSlash c then EmptyString :: splitSlash s'
      else match splitSlash s' with
           | [] => [String c EmptyString]
           | seg :: segs => String c seg :: segs
           end
  end.

Definition segments (path : string) : list string :=
  List.filter (fun seg => negb (String.eqb seg EmptyString)) (splitSlash path).

Definition isDirNamed (s : string) (n : node) : bool :=
  match n with Dir s' _ => String.eqb s' s | File _ => false end.

Definition isNamed (s : string) (n : node) : bool := String.eqb (nodeName n) s.

Definition childrenOf (s : string) (t : list node) : option (list node) :=
  match find (isDirNamed s) t with
  | Some (Dir _ cs) => Some cs
  | _ => None
  end.

Fixpoint lookupDir (segs : list string) (t : list node) : option (list node) :=
  match segs with
  | [] => Some t
  | s :: segs' =>
      match childrenOf s t with
      | Some cs => lookupDir segs' cs
      | None => None
      end
  end.

Fixpoint mkdirs (segs : list string) (t : list node) : list node :=
  match segs with
  | [] => t
  | s :: segs' =>
      if existsb (isDirNamed s) t
      then map (fun n => match n with
                         | Dir s' cs =>
                             if String.eqb s' s then Dir s' (mkdirs segs' cs) else n
                         | File _ => n
                         end) t
      else t ++ [Dir s (mkdirs segs' [])]
  end.

Fixpoint write (segs : list string) (t : list node) : option (list node) :=
  match segs with
  | [] => None
  | [name] => if existsb (isNamed name) t then Some t else Some (t ++ [File name])
  | s :: segs' =>
      match childrenOf s t with
      | None => None
      | Some cs =>
          match write segs' cs with
          | None => None
          | Some cs' =>
              Some (map (fun n => if isDirNamed s n then Dir s cs' else n) t)
          end
      end
  end.

Fixpoint remove (segs : list string) (t : list node) : list node :=
  match segs with
  | [] => t
  | [name] => List.filter (fun n => negb (isNamed name n)) t
  | s :: segs' =>
      map (fun n => match n with
                    | Dir s' cs => if String.eqb s' s then Dir s' (remove segs' cs) else n
                    | File _ => n
                    end) t
  end.

Definition listed (segs : list string) (l : list (list string)) : bool :=
  existsb (fun p => bool_decide (p = segs)) l.

Definition withTree (srv : server) (t : list node) : server :=
  mkServer t (offline srv) (unreadable srv) (undeletable srv).

Definition connect (srv : server) (_ _ _ : string) : option error :=
  if offline srv then Some (Failure "connection refused") else None.

Definition readDir (srv : server) (path : string) : list FileInfo * option error :=
  if listed (segments path) (unreadable srv) then ([], Some (Failure "forbidden"))
  else match lookupDir (segments path) (tree srv) with
       | Some cs => (listing cs, None)
       | None => ([], Some NotFound)
       end.

Definition mkdirAll (srv : server) (path : string) : server * option error :=
  (withTree srv (mkdirs (segments path) (tree srv)), None).

Definition writeStream (srv : server) (path body : string) : server * option error :=
  match write (segments path) (tree srv) with
  | Some t => (withTree srv t, None)
  | None => (srv, Some (Failure "conflict"))
  end.

(** The last segment of [segs] names a file of the tree. *)
Fixpoint isFileAt (segs : list string) (t : list node) : bool :=
  match segs with
  | [] => false
  | [name] => existsb (fun n => negb (nodeIsDir n) && isNamed name n) t
  | s :: segs' =>
      match childrenOf s t with
      | Some cs => isFileAt segs' cs
      | None => false
      end
  end.

(** The tree does not store what was written to a file: reading an
    existing file gives the empty content. *)
Definition readStream (srv : server) (path : string) : string * option error :=
  if isFileAt (segments path) (tree srv) then (EmptyString, None)
  else (EmptyString, Some NotFound).

Definition removePath (srv : server) (path : string) : server * option error :=
  if listed (segments path) (undeletable srv) then (srv, Some (Failure "locked"))
  else (withTree srv (remove (segments path) (tree srv)), None).

#[global] Instance transport : Transport error server := {|
  IsErrNotFound e := match e with NotFound => true | Failure _ => false end;
  errorsNew := Failure;
  Connect := connect;
  ReadDir := readDir;
  MkdirAll := mkdirAll;
  WriteStream := writeStream;
  ReadStream := readStream;
  Remove := removePath
|}.

(** A server that holds the tree [t] and never fails. *)
Definition healthy (t : list node) : server := mkServer t false [] [].

End Mem.

(** ** Concrete stores, trees and servers *)

(** The scenario of the documentation of [ListCommonPrefixes]: buckets
    directory "backups/", bucket "backups". *)
Definition scenarioStore : WebDAVObjectStore :=
  mkStore "https://dav.example" "velero" "secret" "backups/" EmptyString "/".

Definition scenarioTree : list node :=
  [Dir "my-app" [Dir "cars" [File "a"]; Dir "trains" [File "b"]];
   Dir "some-other-app" [Dir "bridges" [File "c"]]].

(** The server after three objects were put on an empty one. *)
Definition scenarioServer : Mem.server :=
  let s0 := Mem.healthy [] in
  let s1 := fst (PutObject scenarioStore s0 "backups" "my-app/cars/a" "1") in
  let s2 := fst (PutObject scenarioStore s1 "backups" "my-app/trains/b" "2") in
  fst (PutObject scenarioStore s2 "backups" "some-other-app/bridges/c" "3").

(** A bucket "bkt" at the top of the server (no buckets directory) that
    holds one object two directories deep, at the key "a/b/f". *)
Definition nestedStore : WebDAVObjectStore :=
  mkStore "https://dav.example" "velero" "secret" EmptyString EmptyString "/".

Definition nestedTree : list node := [Dir "a" [Dir "b" [File "f"]]].

Definition nestedServer : Mem.server :=
  fst (PutObject nestedStore (Mem.healthy []) "bkt" "a/b/f" "1").

(** The same bucket with a second object next to the first. *)
Definition twoObjectsServer : Mem.server :=
  fst (PutObject nestedStore nestedServer "bkt" "a/b/g" "2").

(** The same bucket on servers that refuse one operation. *)
Definition lockedObjectServer : Mem.server :=
  Mem.mkServer (Mem.tree nestedServer) false [] [["bkt"; "a"; "b"; "f"]].

Definition unreadableParentServer : Mem.server :=
  Mem.mkServer (Mem.tree nestedServer) false [["bkt"; "a"; "b"]] [].

Definition lockedParentServer : Mem.server :=
  Mem.mkServer (Mem.tree nestedServer) false [] [["bkt"; "a"; "b"]].

Definition unreadableRootServer : Mem.server :=
  Mem.mkServer (Mem.tree scenarioServer) false [["backups"; "backups"; "my-app"]] [].

(** The store that [Init] makes of a configuration with the buckets
    directory "backups/", and the server after the same three objects
    were put through it. *)
Definition configuredStore : WebDAVObjectStore :=
  Init NewWebDAVObjectStore
       {[ "root" := "https://dav.example"; "user" := "velero";
          "webDAVPassword" := "secret"; "bucketsDir" := "backups/" ]}.

Definition configuredServer : Mem.server :=
  let s0 := Mem.healthy [] in
  let s1 := fst (PutObject configuredStore s0 "backups" "my-app/cars/a" "1") in
  let s2 := fst (PutObject configuredStore s1 "backups" "my-app/trains/b" "2") in
  fst (PutObject configuredStore s2 "backups" "some-other-app/bridges/c" "3").

(** A store with the delimiter "-" and the server after the object "x-y"
    was put into the bucket "b/". *)
Definition dashStore : WebDAVObjectStore :=
  mkStore "https://dav.example" "velero" "secret" EmptyString EmptyString "-".

Definition dashServer : Mem.server :=
  fst (PutObject dashStore (Mem.healthy []) "b/" "x-y" "1").

(** ** Further servers and reference functions *)

(** The scenario server when no connection can be made, and when one
    directory cannot be read. *)
Definition offlineServer : Mem.server :=
  Mem.mkServer (Mem.tree scenarioServer) true [] [].

Definition partialServer : Mem.server :=
  Mem.mkServer (Mem.tree scenarioServer) false
               [["backups"; "backups"; "my-app"; "trains"]] [].

(** The paths that a full walk collects, in depth-first order: for every
    non-directory entry at any depth, the path of its directory, its name
    and "/". *)
Fixpoint allFilePathsNode (parent : string) (n : node) : list string :=
  match n with
  | File s => [parent +:+ s +:+ "/"]
  | Dir s cs => flat_map (allFilePathsNode (parent +:+ s +:+ "/")) cs
  end.

Definition allFilePaths (parent : string) (t : list node) : list string :=
  flat_map (allFilePathsNode parent) t.

(** The prefix that one path contributes in
    [DeterminePrefixesFromFilesWithDelimiter], if any: the path without
    [prefixToCut], up to its last delimiter. *)
Definition prefixCandidate (delimiter prefixToCut currentFile : string)
  : option string :=
  let '(commonPrefix, found) := CutPrefix currentFile prefixToCut in
  if found
  then if LastIndex commonPrefix delimiter =? -1 then None
       else Some (sliceTo commonPrefix (LastIndex commonPrefix delimiter))
  else None.

(** A server whose directory listings have no entry with an empty
    name. *)
Definition namesNonEmpty {Error Server : Type} {T : Transport Error Server}
    (srv : Server) : Prop :=
  forall path file, In file (fst (ReadDir srv path)) -> Name file <> EmptyString.

(** Every entry of the tree, at any depth, has a non-empty name. *)
Fixpoint namedNode (n : node) : bool :=
  negb (String.eqb (nodeName n) EmptyString)
  && match n with
     | File _ => true
     | Dir _ cs => forallb namedNode cs
     end.

(** The directory at [prefixToCut +:+ x] can be read and has a direct
    entry that is not a directory. *)
Definition holdsObject {Error Server : Type} {T : Transport Error Server}
    (srv : Server) (prefixToCut x : string) : Prop :=
  exists files,
    ReadDir srv (prefixToCut +:+ x) = (files, None)
    /\ exists file, In file files /\ IsDir file = false.

(** A store with delimiter "-" and a server that holds the one object
    "k" of the bucket "b" at the top level, as the file "b-k". *)
Definition topLevelServer : Mem.server :=
  fst (PutObject dashStore (Mem.healthy []) "b" "k" "1").

(** The test of [AddDirsWithCommonPrefixes] that lets an entry of the
    directory [parent] take part in the walk. *)
Definition passesFilter (completePrefix prefixToCut parent : string)
    (file : FileInfo) : bool :=
  HasPrefix (parent +:+ Name file +:+ "/") completePrefix
  && snd (CutPrefix (parent +:+ Name file +:+ "/") prefixToCut).

(** The listing has an entry that is not a directory. *)
Definition hasFile (files : list FileInfo) : Prop :=
  exists file, In file files /\ IsDir file = false.

(** Every prefix of the list names a directory that holds an object. *)
Definition allHoldObject {Error Server : Type} {T : Transport Error Server}
    (srv : Server) (prefixToCut : string) (acc : list string) : Prop :=
  forall x, In x acc -> holdsObject srv prefixToCut x.

(** The invariant of the loop of [DeterminePrefixesFromFilesWithDelimiter]:
    the map marks exactly the collected prefixes, and no prefix is
    collected twice. *)
Definition regroupInvariant (st : gmap string bool * list string) : Prop :=
  (forall p, default false (fst st !! p) = true <-> In p (snd st))
  /\ List.NoDup (snd st).

(** * Facts about the string functions *)

Section StringFacts.

Implicit Types (s p a b c : string).

Lemma append_cons x a b : String x a +:+ b = String x (a +:+ b).
Proof. reflexivity. Qed.

Lemma append_nil_l a : EmptyString +:+ a = a.
Proof. reflexivity. Qed.

Lemma append_assoc a b c : (a +:+ b) +:+ c = a +:+ (b +:+ c).
Proof.
  induction a as [|x a IH]; [reflexivity|].
  rewrite !append_cons. now rewrite IH.
Qed.

Lemma append_nil_r a : a +:+ EmptyString = a.
Proof.
  induction a as [|x a IH]; [reflexivity|].
  rewrite append_cons. now rewrite IH.
Qed.

Lemma length_append a b :
  String.length (a +:+ b) = (String.length a + String.length b)%nat.
Proof.
  induction a as [|x a IH]; [reflexivity|].
  rewrite append_cons. simpl. now rewrite IH.
Qed.

Lemma HasPrefix_append p s : HasPrefix (p +:+ s) p = true.
Proof.
  induction p as [|x p IH]; [reflexivity|].
  rewrite append_cons. simpl. now rewrite Ascii.eqb_refl, IH.
Qed.

Lemma HasPrefix_iff s p : HasPrefix s p = true <-> exists r, s = p +:+ r.
Proof.
  split; [|intros [r ->]; apply HasPrefix_append].
  revert s; induction p as [|x p IH]; intros s H.
  - now exists s.
  - destruct s as [|y s]; simpl in H; [discriminate|].
    apply andb_true_iff in H as [->%Ascii.eqb_eq H].
    destruct (IH _ H) as [r ->]. now exists r.
Qed.

Lemma HasPrefix_extend s p r : HasPrefix s p = true -> HasPrefix (s +:+ r) p = true.
Proof.
  intros [q ->]%HasPrefix_iff. rewrite append_assoc. apply HasPrefix_append.
Qed.

Lemma drop_append p s : drop (String.length p) (p +:+ s) = s.
Proof.
  induction p as [|x p IH]; [reflexivity|].
  rewrite append_cons. simpl. exact IH.
Qed.

Lemma CutPrefix_append p s : CutPrefix (p +:+ s) p = (s, true).
Proof. unfold CutPrefix. now rewrite HasPrefix_append, drop_append. Qed.

Lemma CutPrefix_found s p r : CutPrefix s p = (r, true) -> s = p +:+ r.
Proof.
  unfold CutPrefix. destruct (HasPrefix s p) eqn:H; [|discriminate].
  apply HasPrefix_iff in H as [q ->]. rewrite drop_append. congruence.
Qed.

Lemma HasSuffix_append a suf : HasSuffix (a +:+ suf) suf = true.
Proof.
  unfold HasSuffix. rewrite length_append.
  replace (String.length a + String.length suf - String.length suf)%nat
    with (String.length a) by lia.
  rewrite drop_append, String.eqb_refl, andb_true_r.
  apply Nat.leb_le. lia.
Qed.

Lemma append_inv_head p a b : p +:+ a = p +:+ b -> a = b.
Proof.
  induction p as [|x p IH]; intros H; [exact H|].
  rewrite !append_cons in H. injection H. auto.
Qed.

Lemma take_drop n s : String.substring 0 n s +:+ drop n s = s.
Proof.
  revert s; induction n as [|n IH]; intros [|x s]; simpl; try reflexivity.
  rewrite append_cons. now rewrite IH.
Qed.

Lemma drop_drop n m s : drop (n + m) s = drop m (drop n s).
Proof.
  revert s; induction n as [|n IH]; intros s; [reflexivity|].
  destruct s as [|x s]; simpl; [now destruct m | apply IH].
Qed.

Lemma LastIndex_lower s sep : -1 <= LastIndex s sep.
Proof.
  induction s as [|x s IH]; simpl.
  - destruct (HasPrefix EmptyString sep); lia.
  - destruct (0 <=? LastIndex s sep) eqn:E; [apply Z.leb_le in E; lia|].
    destruct (HasPrefix (String x s) sep); lia.
Qed.

(** At a non-negative result, [sep] occurs at that index. *)
Lemma LastIndex_found s sep :
  0 <= LastIndex s sep ->
  HasPrefix (drop (Z.to_nat (LastIndex s sep)) s) sep = true.
Proof.
  induction s as [|x s IH]; simpl.
  - destruct (HasPrefix EmptyString sep) eqn:E; [intros _; exact E | lia].
  - destruct (0 <=? LastIndex s sep) eqn:E.
    + apply Z.leb_le in E. intros _.
      replace (Z.to_nat (LastIndex s sep + 1)) with (S (Z.to_nat (LastIndex s sep)))
        by lia.
      simpl. auto.
    + destruct (HasPrefix (String x s) sep) eqn:E'; [intros _; exact E' | lia].
Qed.

(** A negative result means that [sep] does not occur. *)
Lemma LastIndex_absent s sep :
  LastIndex s sep < 0 -> forall a b, s <> a +:+ sep +:+ b.
Proof.
  induction s as [|x s IH]; simpl; intros H a b Heq.
  - destruct (HasPrefix EmptyString sep) eqn:E; [lia|].
    destruct a; [|discriminate]. rewrite append_nil_l in Heq.
    rewrite Heq, HasPrefix_append in E. discriminate.
  - destruct (0 <=? LastIndex s sep) eqn:E.
    { apply Z.leb_le in E. lia. }
    apply Z.leb_gt in E.
    destruct (HasPrefix (String x s) sep) eqn:E'; [lia|].
    destruct a as [|y a].
    + rewrite append_nil_l in Heq. rewrite Heq, HasPrefix_append in E'.
      discriminate.
    + rewrite append_cons in Heq. injection Heq as _ Heq.
      exact (IH E a b Heq).
Qed.

(** Cutting at the last separator and gluing the parts back. *)
Lemma LastIndex_recombine s sep :
  0 <= LastIndex s sep ->
  sliceTo s (LastIndex s sep) +:+ sep
    +:+ sliceFrom s (LastIndex s sep + Z.of_nat (String.length sep)) = s.
Proof.
  intros H. unfold sliceTo, sliceFrom.
  pose proof (LastIndex_found s sep H) as Hp.
  apply HasPrefix_iff in Hp as [r Hr].
  replace (Z.to_nat (LastIndex s sep + Z.of_nat (String.length sep)))
    with (Z.to_nat (LastIndex s sep) + String.length sep)%nat by lia.
  rewrite drop_drop, Hr, drop_append, <- Hr.
  apply take_drop.
Qed.

End StringFacts.

(** * Splitting a storage path *)


Lemma SplitPath_with_separator path :
  hasSeparator path ->
  let '(dir, name) := SplitPathToDirAndFilename path in
  dir +:+ "/" +:+ name = path.
Proof.
  intros (a & b & Hab). unfold SplitPathToDirAndFilename.
  destruct (LastIndex path "/" =? -1) eqn:E; simpl.
  - apply Z.eqb_eq in E.
    exfalso. apply (LastIndex_absent path "/" ltac:(lia) a b Hab).
  - apply Z.eqb_neq in E. pose proof (LastIndex_lower path "/").
    apply (LastIndex_recombine path "/"). lia.
Qed.

Lemma SplitPath_without_separator path :
  ~ hasSeparator path ->
  SplitPathToDirAndFilename path = (EmptyString, path).
Proof.
  intros Hno. unfold SplitPathToDirAndFilename.
  destruct (LastIndex path "/" =? -1) eqn:E; simpl; [reflexivity|].
  apply Z.eqb_neq in E. pose proof (LastIndex_lower path "/").
  exfalso. apply Hno.
  exists (sliceTo path (LastIndex path "/")),
         (sliceFrom path (LastIndex path "/" + 1)).
  symmetry. apply (LastIndex_recombine path "/"). lia.
Qed.

(** C9. For every bucket and key (in particular every non-empty pair), the
    storage path [bucketsDir ++ bucket ++ delimiter ++ key] split by
    [SplitPathToDirAndFilename] satisfies: if the path contains the
    separator "/", then [dir ++ "/" ++ name] is the path again; if it does
    not, then [dir] is empty and [name] is the whole path. *)
Theorem split_storage_path_recombines (w : WebDAVObjectStore) (bucket key : string) :
  let path := toStoragePath w bucket key in
  let dir := fst (SplitPathToDirAndFilename path) in
  let name := snd (SplitPathToDirAndFilename path) in
  (hasSeparator path -> dir +:+ "/" +:+ name = path)
  /\ (~ hasSeparator path -> dir = EmptyString /\ name = path).
Proof.
  intros path dir name. subst dir name. split.
  - intros H. pose proof (SplitPath_with_separator path H) as R.
    now destruct (SplitPathToDirAndFilename path).
  - intros H. now rewrite (SplitPath_without_separator path H).
Qed.

(** * Directory trees: induction and measures *)


Lemma depth_In n t : In n t -> (depthNode n <= depth t)%nat.
Proof.
  unfold depth. induction t as [|m t IH]; simpl; [tauto|].
  intros [->|H]; [lia | specialize (IH H); lia].
Qed.

Lemma depth_child s cs t : In (Dir s cs) t -> (depth cs < depth t)%nat.
Proof. intros H%depth_In. simpl in H. fold (depth cs) in H. lia. Qed.

Lemma allDirs_listing t : forallb IsDir (listing t) = allDirs t.
Proof.
  unfold allDirs, listing. induction t as [|n t IH]; simpl; [reflexivity|].
  now rewrite IH.
Qed.

Lemma allDirs_false_iff t : allDirs t = false <-> exists f, In (File f) t.
Proof.
  unfold allDirs. induction t as [|n t IH]; simpl.
  - split; [discriminate | intros [_ []]].
  - destruct n as [f|s cs]; simpl.
    + split; [intros _; exists f; now left | reflexivity].
    + rewrite IH. split; intros [f H]; exists f; [now right|].
      destruct H as [H|H]; [discriminate | exact H].
Qed.

(** A directory whose entries are all directories, at every depth, has in
    particular only directories as direct entries. *)
Lemma onlyDirs_allDirs t : onlyDirs t = true -> allDirs t = true.
Proof.
  unfold onlyDirs, allDirs. induction t as [|n t IH]; simpl; [reflexivity|].
  intros [Hn Ht]%andb_true_iff. rewrite (IH Ht), andb_true_r.
  now destruct n.
Qed.

Lemma hasObject_of_file t : (exists f, In (File f) t) -> hasObject t = true.
Proof.
  intros [f H]. unfold hasObject. apply existsb_exists.
  exists (File f). split; [exact H | reflexivity].
Qed.

Lemma DirAt_inv parent t q ds :
  DirAt parent t q ds <->
  exists s cs, In (Dir s cs) t
    /\ ((q = parent +:+ s +:+ "/" /\ ds = cs) \/ DirAt (parent +:+ s +:+ "/") cs q ds).
Proof.
  split.
  - intros H. destruct H as [parent t s cs H|parent t s cs q ds H H'];
      exists s, cs; split; auto.
  - intros (s & cs & H & [[-> ->]|H']);
      [now apply DirAt_child | now apply DirAt_below with s cs].
Qed.

(** Every directory below [parent] has a path that extends [parent]. *)
Lemma DirAt_extends parent t q ds :
  DirAt parent t q ds -> exists r, q = parent +:+ r.
Proof.
  induction 1 as [parent t s cs H|parent t s cs q ds H H' [r IH]].
  - now exists (s +:+ "/").
  - exists (s +:+ "/" +:+ r). rewrite IH. now rewrite !append_assoc.
Qed.

(** Every directory below [parent] has a path that ends with "/". *)
Lemma DirAt_ends_with_separator parent t q ds :
  DirAt parent t q ds -> exists r, q = parent +:+ r +:+ "/".
Proof.
  induction 1 as [parent t s cs H|parent t s cs q ds H H' [r IH]].
  - now exists s.
  - exists (s +:+ "/" +:+ r). rewrite IH. now rewrite !append_assoc.
Qed.

(** The reference traversal lists exactly the directories below [parent]
    that have a direct non-directory entry. *)
Lemma In_postOrderPrefixesNode cut n :
  forall parent x,
    In x (postOrderPrefixesNode cut parent n) <->
    match n with
    | File _ => False
    | Dir s cs =>
        (allDirs cs = false /\ x = drop cut (parent +:+ s +:+ "/"))
        \/ exists q ds, DirAt (parent +:+ s +:+ "/") cs q ds
                        /\ allDirs ds = false /\ x = drop cut q
    end.
Proof.
  induction n as [f|s cs IH] using node_ind'; intros parent x; simpl; [tauto|].
  rewrite in_app_iff, in_flat_map. fold (allDirs cs).
  set (p := parent +:+ s +:+ "/").
  split.
  - intros [(c & Hc & Hx)|Hx].
    + right. rewrite List.Forall_forall in IH. apply (IH c Hc) in Hx.
      destruct c as [f|s' cs']; [contradiction|].
      destruct Hx as [[Ha ->]|(q & ds & Hq & Ha & ->)].
      * exists (p +:+ s' +:+ "/"), cs'. split; [now apply DirAt_child | auto].
      * exists q, ds. split; [now apply DirAt_below with s' cs' | auto].
    + left. destruct (allDirs cs); [contradiction|].
      destruct Hx as [<-|[]]. auto.
  - intros [[Ha ->]|(q & ds & Hq & Ha & ->)].
    + right. rewrite Ha. now left.
    + left. apply DirAt_inv in Hq as (s' & cs' & Hin & Hq).
      exists (Dir s' cs'). split; [exact Hin|].
      rewrite List.Forall_forall in IH. apply (IH _ Hin). simpl. fold p.
      destruct Hq as [[-> ->]|Hq]; [left; auto | right; eauto].
Qed.

Lemma postOrderPrefixes_cons_dir cut parent s cs rest :
  postOrderPrefixes cut parent (Dir s cs :: rest)
  = postOrderPrefixes cut (parent +:+ s +:+ "/") cs
      ++ (if allDirs cs then [] else [drop cut (parent +:+ s +:+ "/")])
      ++ postOrderPrefixes cut parent rest.
Proof. unfold postOrderPrefixes. simpl. now rewrite <- app_assoc. Qed.

Lemma allDirs_cons_dir s cs rest : allDirs (Dir s cs :: rest) = allDirs rest.
Proof. reflexivity. Qed.

Lemma In_postOrderPrefixes cut parent t x :
  In x (postOrderPrefixes cut parent t) <->
  exists q cs, DirAt parent t q cs /\ allDirs cs = false /\ x = drop cut q.
Proof.
  unfold postOrderPrefixes. rewrite in_flat_map. split.
  - intros (n & Hn & Hx). apply In_postOrderPrefixesNode in Hx.
    destruct n as [f|s cs]; [contradiction|].
    destruct Hx as [[Ha ->]|(q & ds & Hq & Ha & ->)].
    + exists (parent +:+ s +:+ "/"), cs. split; [now apply DirAt_child | auto].
    + exists q, ds. split; [now apply DirAt_below with s cs | auto].
  - intros (q & ds & Hq & Ha & ->).
    apply DirAt_inv in Hq as (s & cs & Hin & Hq).
    exists (Dir s cs). split; [exact Hin|].
    apply In_postOrderPrefixesNode.
    destruct Hq as [[-> ->]|Hq]; [left; auto | right; eauto].
Qed.

(** * The native-delimiter listing *)


Lemma listingRoot_native w bucket prefix :
  listingRoot w bucket prefix "/"
  = cutPrefixOf w bucket "/" +:+ normalizedPrefix prefix "/".
Proof. unfold listingRoot, cutPrefixOf. simpl. now rewrite !append_assoc. Qed.

Section NativeListing.

Context {Error Server : Type} {T : Transport Error Server}.
Variable srv : Server.


Lemma serves_ReadDir path t : serves srv path t -> ReadDir srv path = (listing t, None).
Proof. now destruct 1. Qed.

Lemma serves_DirAt parent t q cs : serves srv parent t -> DirAt parent t q cs -> serves srv q cs.
Proof.
  intros Hs H. induction H as [parent t s cs H|parent t s cs q ds H H' IH].
  - destruct Hs as [path t _ Hsub]. now apply Hsub.
  - apply IH. destruct Hs as [path t _ Hsub]. now apply Hsub.
Qed.

(** One run of the loop over the entries [rest] of the directory [parent],
    when the recursive call [self] behaves on the subdirectories of
    [rest]. *)
Lemma addDirsLoop_served self completePrefix prefixToCut parent rest :
  HasPrefix parent completePrefix = true ->
  HasPrefix parent prefixToCut = true ->
  (forall s cs, In (Dir s cs) rest ->
     ReadDir srv (parent +:+ s +:+ "/") = (listing cs, None)
     /\ forall acc,
          self acc (listing cs) (parent +:+ s +:+ "/")
          = Some ((acc ++ postOrderPrefixes (String.length prefixToCut)
                                            (parent +:+ s +:+ "/") cs,
                   allDirs cs), None)) ->
  forall acc flag,
    addDirsLoop srv self completePrefix prefixToCut parent acc flag (listing rest)
    = Some ((acc ++ postOrderPrefixes (String.length prefixToCut) parent rest,
             flag && allDirs rest), None).
Proof.
  intros Hcp Hcut. induction rest as [|n rest IH]; intros Hself acc flag.
  - simpl. now rewrite app_nil_r, andb_true_r.
  - assert (Hrest : forall s cs, In (Dir s cs) rest ->
       ReadDir srv (parent +:+ s +:+ "/") = (listing cs, None)
       /\ forall acc,
            self acc (listing cs) (parent +:+ s +:+ "/")
            = Some ((acc ++ postOrderPrefixes (String.length prefixToCut)
                                              (parent +:+ s +:+ "/") cs,
                     allDirs cs), None))
      by (intros s cs H; apply Hself; now right).
    specialize (IH Hrest).
    cbn [listing map addDirsLoop]. fold (listing rest).
    cbn [info Name IsDir].
    rewrite (HasPrefix_extend _ _ (nodeName n +:+ "/") Hcp). cbn [negb].
    unfold CutPrefix.
    rewrite (HasPrefix_extend _ _ (nodeName n +:+ "/") Hcut). cbn [negb].
    destruct n as [f|s cs]; cbn [nodeIsDir nodeName].
    + rewrite IH. unfold postOrderPrefixes, allDirs. simpl.
      now rewrite andb_false_r.
    + destruct (Hself s cs (or_introl eq_refl)) as [Hread Hrec].
      rewrite Hread, Hrec.
      rewrite postOrderPrefixes_cons_dir, allDirs_cons_dir.
      destruct (allDirs cs); cbn [negb]; rewrite IH;
        now rewrite <- ?app_assoc, ?app_nil_l.
Qed.

(** With a budget above the depth of the tree, the traversal of a served
    tree returns, without error, the accumulated list extended by the
    reference traversal, and the flag "all direct entries are
    directories". *)
Lemma AddDirsWithCommonPrefixes_served completePrefix prefixToCut parent t :
  serves srv parent t ->
  HasPrefix parent completePrefix = true ->
  HasPrefix parent prefixToCut = true ->
  forall fuel acc,
    (depth t < fuel)%nat ->
    AddDirsWithCommonPrefixes fuel srv acc (listing t) completePrefix prefixToCut
                              parent
    = Some ((acc ++ postOrderPrefixes (String.length prefixToCut) parent t,
             allDirs t), None).
Proof.
  induction 1 as [path t Hread Hsub IH]. intros Hcp Hcut fuel acc Hfuel.
  destruct fuel as [|fuel]; [lia|]. cbn [AddDirsWithCommonPrefixes].
  rewrite (addDirsLoop_served _ completePrefix prefixToCut path t Hcp Hcut).
  - reflexivity.
  - intros s cs Hin. split.
    + apply serves_ReadDir. now apply Hsub.
    + intros acc'. apply IH; auto using HasPrefix_extend.
      pose proof (depth_child s cs t Hin). lia.
Qed.

(** The native-delimiter listing of a served tree. *)
Lemma ListCommonPrefixes_native w bucket prefix t fuel :
  Connect srv (root w) (user w) (password w) = None ->
  serves srv (listingRoot w bucket prefix "/") t ->
  (depth t < fuel)%nat ->
  ListCommonPrefixes fuel w srv bucket prefix "/"
  = Some (postOrderPrefixes (String.length (cutPrefixOf w bucket "/"))
                            (listingRoot w bucket prefix "/") t, None).
Proof.
  intros Hconn Hs Hfuel. unfold ListCommonPrefixes. rewrite Hconn.
  change (String.eqb "/" "/") with true. cbv iota.
  fold (normalizedPrefix prefix "/").
  change (bucketsDir w +:+ bucket +:+ "/" +:+ normalizedPrefix prefix "/")
    with (listingRoot w bucket prefix "/").
  rewrite (serves_ReadDir _ _ Hs).
  fold (cutPrefixOf w bucket "/").
  rewrite (AddDirsWithCommonPrefixes_served _ _ _ t Hs); auto.
  - apply HasPrefix_iff. exists EmptyString. now rewrite append_nil_r.
  - rewrite listingRoot_native. apply HasPrefix_append.
Qed.

(** Paths below the listing root start with the prefix that is cut. *)
Lemma DirAt_cut w bucket prefix t q cs :
  DirAt (listingRoot w bucket prefix "/") t q cs ->
  exists r, q = cutPrefixOf w bucket "/" +:+ r.
Proof.
  intros [r ->]%DirAt_extends. rewrite listingRoot_native, append_assoc. eauto.
Qed.

(** In the reference traversal of a served tree, a directory is listed
    exactly when one of its direct entries is not a directory. *)
Lemma served_inclusion w bucket prefix t q cs :
  serves srv (listingRoot w bucket prefix "/") t ->
  DirAt (listingRoot w bucket prefix "/") t q cs ->
  In (drop (String.length (cutPrefixOf w bucket "/")) q)
     (postOrderPrefixes (String.length (cutPrefixOf w bucket "/"))
                        (listingRoot w bucket prefix "/") t)
  <-> allDirs cs = false.
Proof.
  intros Hs Hq. rewrite In_postOrderPrefixes. split.
  - intros (q' & cs' & Hq' & Ha & Heq).
    destruct (DirAt_cut _ _ _ _ _ _ Hq) as [r ->].
    destruct (DirAt_cut _ _ _ _ _ _ Hq') as [r' ->].
    rewrite !drop_append in Heq. subst r'.
    pose proof (serves_ReadDir _ _ (serves_DirAt _ _ _ _ Hs Hq)) as R.
    pose proof (serves_ReadDir _ _ (serves_DirAt _ _ _ _ Hs Hq')) as R'.
    rewrite R in R'. injection R' as R'.
    rewrite <- (allDirs_listing cs). rewrite R'. rewrite allDirs_listing. exact Ha.
  - intros Ha. exists q, cs. auto.
Qed.

End NativeListing.

(** C1 (amended). In the native-delimiter case of [ListCommonPrefixes], on
    a served directory tree and with a recursion budget above its depth:
    the recursive call of [AddDirsWithCommonPrefixes] on a directory
    returns the boolean [true] exactly when all DIRECT entries of that
    directory are directories; the directory is in the returned list if
    and only if that boolean is [false], that is, if and only if at
    least one of its direct entries is not a directory. *)
Theorem native_inclusion_by_direct_entries
    {Error Server : Type} {T : Transport Error Server} (srv : Server)
    (w : WebDAVObjectStore) (bucket prefix : string) (t : list node) (fuel : nat) :
  Connect srv (root w) (user w) (password w) = None ->
  serves srv (listingRoot w bucket prefix "/") t ->
  (depth t < fuel)%nat ->
  exists dirs,
    ListCommonPrefixes fuel w srv bucket prefix "/" = Some (dirs, None)
    /\ forall q cs,
         DirAt (listingRoot w bucket prefix "/") t q cs ->
         (forall acc fuel',
            (depth cs < fuel')%nat ->
            exists out,
              AddDirsWithCommonPrefixes fuel' srv acc (listing cs)
                (listingRoot w bucket prefix "/") (cutPrefixOf w bucket "/") q
              = Some ((out, allDirs cs), None))
         /\ (In (drop (String.length (cutPrefixOf w bucket "/")) q) dirs
             <-> allDirs cs = false)
         /\ (allDirs cs = false <-> exists f, In (File f) cs).
Proof.
  intros Hconn Hs Hfuel. eexists. split.
  { exact (ListCommonPrefixes_native srv w bucket prefix t fuel Hconn Hs Hfuel). }
  intros q cs Hq. split; [|split].
  - intros acc fuel' Hfuel'. eexists.
    apply AddDirsWithCommonPrefixes_served; auto.
    + exact (serves_DirAt srv _ _ _ _ Hs Hq).
    + destruct (DirAt_extends _ _ _ _ Hq) as [r ->]. apply HasPrefix_append.
    + destruct (DirAt_cut _ _ _ _ _ _ Hq) as [r ->]. apply HasPrefix_append.
  - exact (served_inclusion srv w bucket prefix t q cs Hs Hq).
  - apply allDirs_false_iff.
Qed.

(** C2. With delimiter "/", on a served directory tree and with a
    recursion budget above its depth, [ListCommonPrefixes] returns a list
    without error in which no element names a directory whose contents
    are directories only, at every depth; every element names a
    directory of the tree that has an object beneath it. *)
Theorem native_never_returns_directory_only_tree
    {Error Server : Type} {T : Transport Error Server} (srv : Server)
    (w : WebDAVObjectStore) (bucket prefix : string) (t : list node) (fuel : nat) :
  Connect srv (root w) (user w) (password w) = None ->
  serves srv (listingRoot w bucket prefix "/") t ->
  (depth t < fuel)%nat ->
  exists dirs,
    ListCommonPrefixes fuel w srv bucket prefix "/" = Some (dirs, None)
    /\ (forall q cs,
          DirAt (listingRoot w bucket prefix "/") t q cs ->
          onlyDirs cs = true ->
          ~ In (drop (String.length (cutPrefixOf w bucket "/")) q) dirs)
    /\ (forall x,
          In x dirs ->
          exists q cs,
            DirAt (listingRoot w bucket prefix "/") t q cs
            /\ x = drop (String.length (cutPrefixOf w bucket "/")) q
            /\ onlyDirs cs = false /\ hasObject cs = true).
Proof.
  intros Hconn Hs Hfuel. eexists. split; [|split].
  { exact (ListCommonPrefixes_native srv w bucket prefix t fuel Hconn Hs Hfuel). }
  - intros q cs Hq Honly Hin.
    apply (served_inclusion srv w bucket prefix t q cs Hs Hq) in Hin.
    apply onlyDirs_allDirs in Honly. congruence.
  - intros x (q & cs & Hq & Ha & ->)%In_postOrderPrefixes.
    exists q, cs. repeat split; auto.
    + destruct (onlyDirs cs) eqn:E; [|reflexivity].
      apply onlyDirs_allDirs in E. congruence.
    + now apply hasObject_of_file, allDirs_false_iff.
Qed.

(** ** The scenarios *)

Ltac serve_tree :=
  apply serves_dir;
  [ vm_compute; reflexivity
  | let s := fresh "s" in
    let cs := fresh "cs" in
    let H := fresh "H" in
    intros s cs H; cbn in H;
    repeat (destruct H as [H|H];
            [first [discriminate H | injection H as <- <-; serve_tree]|]);
    contradiction ].

Lemma scenarioServer_serves :
  serves scenarioServer "backups/backups/" scenarioTree.
Proof. serve_tree. Qed.

Lemma nestedServer_serves : serves nestedServer "bkt/" nestedTree.
Proof. serve_tree. Qed.

Lemma native_inclusion_by_direct_entries_witness :
  exists dirs,
    ListCommonPrefixes 3 nestedStore nestedServer "bkt" "" "/" = Some (dirs, None)
    /\ forall q cs,
         DirAt (listingRoot nestedStore "bkt" "" "/") nestedTree q cs ->
         (forall acc fuel',
            (depth cs < fuel')%nat ->
            exists out,
              AddDirsWithCommonPrefixes fuel' nestedServer acc (listing cs)
                (listingRoot nestedStore "bkt" "" "/")
                (cutPrefixOf nestedStore "bkt" "/") q
              = Some ((out, allDirs cs), None))
         /\ (In (drop (String.length (cutPrefixOf nestedStore "bkt" "/")) q) dirs
             <-> allDirs cs = false)
         /\ (allDirs cs = false <-> exists f, In (File f) cs).
Proof.
  apply (native_inclusion_by_direct_entries nestedServer nestedStore "bkt" ""
                                            nestedTree 3).
  - reflexivity.
  - exact nestedServer_serves.
  - vm_compute. lia.
Defined.

(** Counterexample to C1 as stated: the reading with "direct and
    transitive" entries fails on the
    bucket that holds the single key "a/b/f": the directory "a/" has the
    object "f" beneath it but is not in the result, and the recursive
    call on "a/" returns [true] although not everything beneath "a/" is
    a directory. *)
Lemma transitive_inclusion_fails :
  ListCommonPrefixes 3 nestedStore nestedServer "bkt" "" "/"
    = Some (["a/b/"], None)
  /\ DirAt (listingRoot nestedStore "bkt" "" "/") nestedTree "bkt/a/"
           [Dir "b" [File "f"]]
  /\ ~ (In (drop (String.length (cutPrefixOf nestedStore "bkt" "/")) "bkt/a/")
           ["a/b/"]
        <-> hasObject [Dir "b" [File "f"]] = true)
  /\ AddDirsWithCommonPrefixes 2 nestedServer [] (listing [Dir "b" [File "f"]])
       (listingRoot nestedStore "bkt" "" "/") (cutPrefixOf nestedStore "bkt" "/")
       "bkt/a/"
     = Some ((["a/b/"], true), None)
  /\ onlyDirs [Dir "b" [File "f"]] = false.
Proof.
  split; [vm_compute; reflexivity|].
  split; [apply (DirAt_child "bkt/" nestedTree "a" [Dir "b" [File "f"]]); now left|].
  split; [|split; vm_compute; reflexivity].
  intros [_ H]. specialize (H eq_refl). vm_compute in H.
  destruct H as [H|[]]. discriminate H.
Qed.

Lemma native_never_returns_directory_only_tree_witness :
  exists dirs,
    ListCommonPrefixes 3 scenarioStore scenarioServer "backups" "" "/"
      = Some (dirs, None)
    /\ (forall q cs,
          DirAt (listingRoot scenarioStore "backups" "" "/") scenarioTree q cs ->
          onlyDirs cs = true ->
          ~ In (drop (String.length (cutPrefixOf scenarioStore "backups" "/")) q)
               dirs)
    /\ (forall x,
          In x dirs ->
          exists q cs,
            DirAt (listingRoot scenarioStore "backups" "" "/") scenarioTree q cs
            /\ x = drop (String.length (cutPrefixOf scenarioStore "backups" "/")) q
            /\ onlyDirs cs = false /\ hasObject cs = true).
Proof.
  apply (native_never_returns_directory_only_tree
           scenarioServer scenarioStore "backups" "" scenarioTree 3).
  - reflexivity.
  - exact scenarioServer_serves.
  - vm_compute. lia.
Defined.

(** C3. With buckets directory "backups/", bucket "backups" and delimiter
    "/", on every server that holds exactly the objects "my-app/cars/a",
    "my-app/trains/b" and "some-other-app/bridges/c" of the bucket,
    [ListCommonPrefixes "backups" "my-app" "/"] returns
    ["my-app/cars/"; "my-app/trains/"], in this order, and no error. *)
Theorem scenario_common_prefixes
    {Error Server : Type} {T : Transport Error Server} (srv : Server)
    (w : WebDAVObjectStore) (fuel : nat) :
  bucketsDir w = "backups/" ->
  Connect srv (root w) (user w) (password w) = None ->
  serves srv "backups/backups/" scenarioTree ->
  (2 <= fuel)%nat ->
  ListCommonPrefixes fuel w srv "backups" "my-app" "/"
  = Some (["my-app/cars/"; "my-app/trains/"], None).
Proof.
  intros Hdir Hconn Hs Hfuel.
  assert (Hroot : listingRoot w "backups" "my-app" "/" = "backups/backups/my-app/")
    by (unfold listingRoot; rewrite Hdir; reflexivity).
  assert (Hsub : serves srv (listingRoot w "backups" "my-app" "/")
                        [Dir "cars" [File "a"]; Dir "trains" [File "b"]]).
  { rewrite Hroot. inversion Hs as [path t _ Hsub]; subst.
    exact (Hsub "my-app" _ (or_introl eq_refl)). }
  rewrite (ListCommonPrefixes_native srv w "backups" "my-app" _ fuel Hconn Hsub).
  - rewrite Hroot. unfold cutPrefixOf. rewrite Hdir. reflexivity.
  - vm_compute. lia.
Qed.

Lemma scenario_common_prefixes_witness :
  ListCommonPrefixes 2 scenarioStore scenarioServer "backups" "my-app" "/"
  = Some (["my-app/cars/"; "my-app/trains/"], None).
Proof.
  apply (scenario_common_prefixes scenarioServer scenarioStore 2).
  - reflexivity.
  - reflexivity.
  - exact scenarioServer_serves.
  - lia.
Defined.

(** The same scenario with a store that went through [Init]: the stored
    buckets directory is "backups//" (see C4), which the server reads as
    the same directory, and the listing is the same. *)
Lemma scenario_common_prefixes_after_Init :
  bucketsDir configuredStore = "backups//"
  /\ Mem.tree configuredServer = Mem.tree scenarioServer
  /\ ListCommonPrefixes 2 configuredStore configuredServer "backups" "my-app" "/"
     = Some (["my-app/cars/"; "my-app/trains/"], None).
Proof. split; [|split]; vm_compute; reflexivity. Qed.

(** * Initialisation *)

(** The buckets directory that [Init] stores. *)
Lemma Init_bucketsDir w config :
  bucketsDir (Init w config)
  = let d := configGet config "bucketsDir" in
    if negb (String.eqb d EmptyString) && negb (HasPrefix d "/")
    then d +:+ "/" else d.
Proof. reflexivity. Qed.

(** The stored buckets directory is empty or ends with "/" whenever the
    configured one does not begin with "/". *)
Lemma Init_bucketsDir_terminated w config :
  HasPrefix (configGet config "bucketsDir") "/" = false ->
  bucketsDir (Init w config) = EmptyString
  \/ HasSuffix (bucketsDir (Init w config)) "/" = true.
Proof.
  intros H. rewrite Init_bucketsDir. cbv zeta. rewrite H.
  destruct (String.eqb_spec (configGet config "bucketsDir") EmptyString) as [->|_].
  - now left.
  - right. apply HasSuffix_append.
Qed.

(** C4. [Init] tests the configured buckets directory with
    [strings.HasPrefix] where the invariant asks for the end of the
    string: for the configuration that sets "bucketsDir" to "/backups",
    the stored buckets directory is "/backups", which is neither empty
    nor ends with "/". *)
Theorem init_leaves_buckets_dir_unterminated :
  let w := Init NewWebDAVObjectStore {[ "bucketsDir" := "/backups" ]} in
  bucketsDir w = "/backups"
  /\ bucketsDir w <> EmptyString
  /\ HasSuffix (bucketsDir w) "/" = false.
Proof. vm_compute. repeat split. discriminate. Qed.

(** * Listing objects *)

Lemma listObjectsLoop_spec w cut rest files : forall objects,
  listObjectsLoop w (cut +:+ rest) cut objects files
  = objects ++ map (fun file => rest +:+ Name file +:+ delimiter w)
                   (List.filter (fun file => negb (IsDir file)) files).
Proof.
  induction files as [|file files IH]; intros objects; simpl.
  - now rewrite app_nil_r.
  - destruct (IsDir file); simpl; [apply IH|].
    rewrite append_assoc, CutPrefix_append. simpl.
    rewrite IH. now rewrite <- app_assoc.
Qed.

(** What [ListObjects] returns on a directory that can be read: for every
    entry of the directory that is not a directory, in the order of the
    listing, the normalised prefix, the name of the entry and the
    delimiter. Entries of subdirectories are not read. *)
Lemma ListObjects_read
    {Error Server : Type} {T : Transport Error Server} (srv : Server)
    (w : WebDAVObjectStore) (bucket prefix : string) (files : list FileInfo) :
  Connect srv (root w) (user w) (password w) = None ->
  ReadDir srv (objectsRoot w bucket prefix) = (files, None) ->
  ListObjects w srv bucket prefix
  = (map (fun file => normalizedPrefix prefix (delimiter w) +:+ Name file
                        +:+ delimiter w)
         (List.filter (fun file => negb (IsDir file)) files), None).
Proof.
  intros Hconn Hread. unfold ListObjects. rewrite Hconn.
  fold (normalizedPrefix prefix (delimiter w)).
  fold (objectsRoot w bucket prefix). rewrite Hread.
  replace (objectsRoot w bucket prefix)
    with ((bucketsDir w +:+ bucket +:+ delimiter w)
            +:+ normalizedPrefix prefix (delimiter w))
    by (unfold objectsRoot; now rewrite !append_assoc).
  now rewrite listObjectsLoop_spec.
Qed.

(** C5. [ListObjects] appends the delimiter to every key it reports: the
    object put at the key "my-app/cars/a" (storage path
    "backups/backups/my-app/cars/a") is listed as "my-app/cars/a/", a key
    under which the adapter itself finds no object. *)
Theorem list_objects_appends_delimiter :
  ListObjects scenarioStore scenarioServer "backups" "my-app/cars"
    = (["my-app/cars/a/"], None)
  /\ toStoragePath scenarioStore "backups" "my-app/cars/a"
     = cutPrefixOf scenarioStore "backups" "/" +:+ "my-app/cars/a"
  /\ ObjectExists scenarioStore scenarioServer "backups" "my-app/cars/a"
     = (true, None)
  /\ ObjectExists scenarioStore scenarioServer "backups" "my-app/cars/a/"
     = (false, None).
Proof. repeat split; vm_compute; reflexivity. Qed.

(** * The end of the returned prefixes *)

(** In the native-delimiter case every returned prefix ends with "/". *)
Lemma native_prefixes_end_with_separator
    {Error Server : Type} {T : Transport Error Server} (srv : Server)
    (w : WebDAVObjectStore) (bucket prefix : string) (t : list node) (fuel : nat) :
  Connect srv (root w) (user w) (password w) = None ->
  serves srv (listingRoot w bucket prefix "/") t ->
  (depth t < fuel)%nat ->
  exists dirs,
    ListCommonPrefixes fuel w srv bucket prefix "/" = Some (dirs, None)
    /\ forall x, In x dirs -> HasSuffix x "/" = true.
Proof.
  intros Hconn Hs Hfuel. eexists. split.
  { exact (ListCommonPrefixes_native srv w bucket prefix t fuel Hconn Hs Hfuel). }
  intros x (q & cs & Hq & _ & ->)%In_postOrderPrefixes.
  destruct (DirAt_ends_with_separator _ _ _ _ Hq) as [r ->].
  rewrite listingRoot_native.
  replace ((cutPrefixOf w bucket "/" +:+ normalizedPrefix prefix "/") +:+ r +:+ "/")
    with (cutPrefixOf w bucket "/" +:+ (normalizedPrefix prefix "/" +:+ r) +:+ "/")
    by now rewrite !append_assoc.
  rewrite drop_append. apply HasSuffix_append.
Qed.

(** C6. With the delimiter "-", after the object "x-y" was put into the
    bucket "b/", [ListCommonPrefixes] returns the prefix "x", which does
    not end with the delimiter: [DeterminePrefixesFromFilesWithDelimiter]
    keeps the part of the key before its last delimiter and drops the
    delimiter. *)
Theorem non_native_prefix_lacks_delimiter :
  ListCommonPrefixes 2 dashStore dashServer "b/" "" "-" = Some (["x"], None)
  /\ DeterminePrefixesFromFilesWithDelimiter ["b/-x-y/"] "-" "b/-" = ["x"]
  /\ HasSuffix "x" "-" = false
  /\ ObjectExists dashStore dashServer "b/" "x-y" = (true, None).
Proof. repeat split; vm_compute; reflexivity. Qed.

(** * A listing root that cannot be read *)

(** C7. When the connection is made and reading the listing root fails
    with error [e], [ListCommonPrefixes] and [ListObjects] return the
    empty list; the error they return is [nil] when [e] is the not-found
    condition and [e] otherwise. *)
Theorem listing_root_read_error
    {Error Server : Type} {T : Transport Error Server} (srv : Server)
    (w : WebDAVObjectStore) (bucket prefix delim : string) (fuel : nat)
    (files : list FileInfo) (e : Error) :
  Connect srv (root w) (user w) (password w) = None ->
  (ReadDir srv (listingRoot w bucket prefix delim) = (files, Some e) ->
   ListCommonPrefixes fuel w srv bucket prefix delim
   = Some ([], if IsErrNotFound e then None else Some e))
  /\ (ReadDir srv (objectsRoot w bucket prefix) = (files, Some e) ->
      ListObjects w srv bucket prefix
      = ([], if IsErrNotFound e then None else Some e)).
Proof.
  intros Hconn. split; intros Hread.
  - unfold ListCommonPrefixes. rewrite Hconn.
    fold (normalizedPrefix prefix delim).
    fold (listingRoot w bucket prefix delim). rewrite Hread.
    now destruct (IsErrNotFound e).
  - unfold ListObjects. rewrite Hconn.
    fold (normalizedPrefix prefix (delimiter w)).
    fold (objectsRoot w bucket prefix). rewrite Hread.
    now destruct (IsErrNotFound e).
Qed.

Lemma listing_root_read_error_witness :
  (ListCommonPrefixes 0 scenarioStore (Mem.healthy []) "backups" "my-app" "/"
     = Some ([], None)
   /\ ListObjects scenarioStore (Mem.healthy []) "backups" "my-app" = ([], None))
  /\ (ListCommonPrefixes 0 scenarioStore unreadableRootServer "backups" "my-app" "/"
        = Some ([], Some (Mem.Failure "forbidden"))
      /\ ListObjects scenarioStore unreadableRootServer "backups" "my-app"
         = ([], Some (Mem.Failure "forbidden"))).
Proof.
  split.
  - pose proof (listing_root_read_error (Mem.healthy []) scenarioStore "backups"
                  "my-app" "/" 0 [] Mem.NotFound eq_refl) as [H1 H2].
    split; [exact (H1 eq_refl) | exact (H2 eq_refl)].
  - pose proof (listing_root_read_error unreadableRootServer scenarioStore
                  "backups" "my-app" "/" 0 [] (Mem.Failure "forbidden") eq_refl)
      as [H1 H2].
    split; [exact (H1 eq_refl) | exact (H2 eq_refl)].
Defined.

(** * Deleting an object *)

(** C8. After a successful connection [DeleteObject] removes the object
    at its storage path. An error of that removal is returned. Otherwise
    it lists the parent directory on the resulting server; an error of
    the listing is returned; if the listing has an entry, nothing else
    is changed and no error is returned; if the listing is empty, the
    parent directory is removed and the outcome of that removal, server
    and error, is the outcome of [DeleteObject]. Nothing above the parent
    is touched. *)
Theorem delete_object_cleans_parent_once
    {Error Server : Type} {T : Transport Error Server} (srv : Server)
    (w : WebDAVObjectStore) (bucket key : string) :
  let path := toStoragePath w bucket key in
  let dir := fst (SplitPathToDirAndFilename path) in
  let srv1 := fst (Remove srv path) in
  Connect srv (root w) (user w) (password w) = None ->
  (forall e, snd (Remove srv path) = Some e ->
             DeleteObject w srv bucket key = (srv1, Some e))
  /\ (snd (Remove srv path) = None ->
      (forall files e, ReadDir srv1 dir = (files, Some e) ->
                       DeleteObject w srv bucket key = (srv1, Some e))
      /\ (forall file files, ReadDir srv1 dir = (file :: files, None) ->
                             DeleteObject w srv bucket key = (srv1, None))
      /\ (ReadDir srv1 dir = ([], None) ->
          DeleteObject w srv bucket key = Remove srv1 dir)).
Proof.
  intros path dir srv1 Hconn. subst srv1 dir. unfold DeleteObject.
  fold path. rewrite Hconn.
  destruct (SplitPathToDirAndFilename path) as [dir name]. cbn [fst].
  destruct (Remove srv path) as [srv1 err1]. cbn [fst snd].
  split.
  - intros e ->. reflexivity.
  - intros ->. repeat split.
    + intros files e ->. reflexivity.
    + intros file files ->. reflexivity.
    + intros ->. cbn [List.length Z.of_nat Z.eqb].
      destruct (Remove srv1 dir) as [srv2 [e|]]; reflexivity.
Qed.

Lemma delete_object_cleans_parent_once_witness :
  DeleteObject nestedStore nestedServer "bkt" "a/b/f"
    = (Mem.healthy [Dir "bkt" [Dir "a" []]], None)
  /\ DeleteObject nestedStore twoObjectsServer "bkt" "a/b/f"
     = (Mem.healthy [Dir "bkt" [Dir "a" [Dir "b" [File "g"]]]], None)
  /\ DeleteObject nestedStore lockedObjectServer "bkt" "a/b/f"
     = (lockedObjectServer, Some (Mem.Failure "locked"))
  /\ DeleteObject nestedStore unreadableParentServer "bkt" "a/b/f"
     = (Mem.mkServer [Dir "bkt" [Dir "a" [Dir "b" []]]] false
                     [["bkt"; "a"; "b"]] [],
        Some (Mem.Failure "forbidden"))
  /\ DeleteObject nestedStore lockedParentServer "bkt" "a/b/f"
     = (Mem.mkServer [Dir "bkt" [Dir "a" [Dir "b" []]]] false []
                     [["bkt"; "a"; "b"]],
        Some (Mem.Failure "locked")).
Proof.
  split; [|split; [|split; [|split]]].
  - destruct (delete_object_cleans_parent_once (T := Mem.transport) nestedServer nestedStore "bkt"
                "a/b/f" eq_refl) as [_ H].
    destruct (H eq_refl) as (_ & _ & H3).
    exact (H3 eq_refl).
  - destruct (delete_object_cleans_parent_once (T := Mem.transport) twoObjectsServer nestedStore "bkt"
                "a/b/f" eq_refl) as [_ H].
    destruct (H eq_refl) as (_ & H2 & _).
    exact (H2 (mkFileInfo "g" false) [] eq_refl).
  - destruct (delete_object_cleans_parent_once (T := Mem.transport) lockedObjectServer nestedStore
                "bkt" "a/b/f" eq_refl) as [H _].
    exact (H (Mem.Failure "locked") eq_refl).
  - destruct (delete_object_cleans_parent_once (T := Mem.transport) unreadableParentServer nestedStore
                "bkt" "a/b/f" eq_refl) as [_ H].
    destruct (H eq_refl) as (H1 & _ & _).
    exact (H1 [] (Mem.Failure "forbidden") eq_refl).
  - destruct (delete_object_cleans_parent_once (T := Mem.transport) lockedParentServer nestedStore
                "bkt" "a/b/f" eq_refl) as [_ H].
    destruct (H eq_refl) as (_ & _ & H3).
    exact (H3 eq_refl).
Defined.

Lemma split_storage_path_recombines_witness :
  (fst (SplitPathToDirAndFilename "backups/backups/my-app/cars/a") +:+ "/"
     +:+ snd (SplitPathToDirAndFilename "backups/backups/my-app/cars/a")
   = "backups/backups/my-app/cars/a")
  /\ (fst (SplitPathToDirAndFilename "b-k") = EmptyString
      /\ snd (SplitPathToDirAndFilename "b-k") = "b-k").
Proof.
  split.
  - apply (proj1 (split_storage_path_recombines scenarioStore "backups"
                    "my-app/cars/a")).
    exists "backups", "backups/my-app/cars/a". reflexivity.
  - apply (proj2 (split_storage_path_recombines dashStore "b" "k")).
    intros (a & b & H).
    apply (LastIndex_absent "b-k" "/" ltac:(vm_compute; reflexivity) a b).
    exact H.
Defined.

(** * The non-native listing and the prefix *)

(** C10. With a delimiter other than "/", [ListCommonPrefixes] does not
    read its prefix argument: on the same server, for the same bucket,
    delimiter and recursion budget, any two prefixes give the same
    outcome (the same list and error). *)
Theorem non_native_listing_ignores_prefix
    {Error Server : Type} {T : Transport Error Server} (srv : Server)
    (w : WebDAVObjectStore) (bucket p1 p2 delim : string) (fuel : nat) :
  delim <> "/" ->
  ListCommonPrefixes fuel w srv bucket p1 delim
  = ListCommonPrefixes fuel w srv bucket p2 delim.
Proof.
  intros Hd. unfold ListCommonPrefixes.
  destruct (String.eqb_spec delim "/") as [Heq|_]; [contradiction|].
  reflexivity.
Qed.

Lemma non_native_listing_ignores_prefix_witness :
  ListCommonPrefixes 2 dashStore dashServer "b/" "x" "-"
    = ListCommonPrefixes 2 dashStore dashServer "b/" "another" "-"
  /\ ListCommonPrefixes 2 dashStore dashServer "b/" "another" "-"
     = Some (["x"], None).
Proof.
  split.
  - apply (non_native_listing_ignores_prefix dashServer dashStore "b/" "x"
                                             "another" "-" 2).
    discriminate.
  - vm_compute. reflexivity.
Defined.

(** * Further properties of the path mapper *)

Section SplitFacts.

Implicit Types (s sep dir name path : string).

(** Without an occurrence of [sep], the result is negative. *)
Lemma LastIndex_negative s sep :
  (forall a b, s <> a +:+ sep +:+ b) -> LastIndex s sep < 0.
Proof.
  intros Hno. pose proof (LastIndex_lower s sep).
  destruct (Z_lt_le_dec (LastIndex s sep) 0) as [Hlt|Hge]; [exact Hlt|].
  exfalso. apply (Hno (sliceTo s (LastIndex s sep))
                      (sliceFrom s (LastIndex s sep + Z.of_nat (String.length sep)))).
  symmetry. now apply LastIndex_recombine.
Qed.

(** No occurrence of a non-empty [sep] starts after the index found. *)
Lemma LastIndex_is_last s sep :
  sep <> EmptyString ->
  0 <= LastIndex s sep ->
  LastIndex (drop (Z.to_nat (LastIndex s sep) + 1) s) sep < 0.
Proof.
  intros Hsep. induction s as [|x s IH]; simpl.
  - destruct sep; [contradiction|]. simpl. lia.
  - destruct (0 <=? LastIndex s sep) eqn:E.
    + apply Z.leb_le in E. intros _.
      replace (Z.to_nat (LastIndex s sep + 1) + 1)%nat
        with (S (Z.to_nat (LastIndex s sep) + 1)) by lia.
      simpl. auto.
    + apply Z.leb_gt in E.
      destruct (HasPrefix (String x s) sep); [|lia].
      intros _. simpl. exact E.
Qed.

Lemma substring_append a b : String.substring 0 (String.length a) (a +:+ b) = a.
Proof.
  induction a as [|x a IH].
  - rewrite append_nil_l. now destruct b.
  - rewrite append_cons. simpl. now rewrite IH.
Qed.

(** The index of the separator that is followed by no other. *)
Lemma LastIndex_join dir name :
  ~ hasSeparator name ->
  LastIndex (dir +:+ "/" +:+ name) "/" = Z.of_nat (String.length dir).
Proof.
  intros Hno.
  assert (Hneg : LastIndex name "/" < 0).
  { apply LastIndex_negative. intros a b H. apply Hno. now exists a, b. }
  induction dir as [|x dir IH].
  - rewrite append_nil_l. change ("/" +:+ name) with (String "/" name).
    cbn [LastIndex]. destruct (0 <=? LastIndex name "/") eqn:E.
    + apply Z.leb_le in E. lia.
    + reflexivity.
  - rewrite append_cons. cbn [LastIndex]. rewrite IH.
    destruct (0 <=? Z.of_nat (String.length dir)) eqn:E.
    + cbn [String.length]. lia.
    + apply Z.leb_gt in E. lia.
Qed.

End SplitFacts.

Lemma SplitPath_name_clean (path : string) :
  ~ hasSeparator (snd (SplitPathToDirAndFilename path)).
Proof.
  unfold SplitPathToDirAndFilename.
  destruct (LastIndex path "/" =? -1) eqn:E; simpl.
  - apply Z.eqb_eq in E. intros (a & b & H).
    apply (LastIndex_absent path "/" ltac:(lia) a b H).
  - apply Z.eqb_neq in E. pose proof (LastIndex_lower path "/") as Hlow.
    intros (a & b & H). unfold sliceFrom in H.
    replace (Z.to_nat (LastIndex path "/" + 1))
      with (Z.to_nat (LastIndex path "/") + 1)%nat in H by lia.
    refine (LastIndex_absent _ "/" _ a b H).
    apply LastIndex_is_last; [discriminate | lia].
Qed.

(** X1. The file name that [SplitPathToDirAndFilename] returns never
    contains the separator "/": the path is cut at its last "/". *)
Theorem split_name_has_no_separator (path : string) :
  ~ hasSeparator (snd (SplitPathToDirAndFilename path)).
Proof. apply SplitPath_name_clean. Qed.

Lemma SplitPath_join (dir name : string) :
  ~ hasSeparator name ->
  SplitPathToDirAndFilename (dir +:+ "/" +:+ name) = (dir, name).
Proof.
  intros Hno. unfold SplitPathToDirAndFilename.
  rewrite (LastIndex_join dir name Hno).
  destruct (Z.of_nat (String.length dir) =? -1) eqn:E;
    [apply Z.eqb_eq in E; lia|].
  cbn [negb]. unfold sliceTo, sliceFrom. f_equal.
  - rewrite Nat2Z.id. apply substring_append.
  - replace (Z.to_nat (Z.of_nat (String.length dir) + 1))
      with (String.length dir + 1)%nat by lia.
    rewrite drop_drop, drop_append. reflexivity.
Qed.

(** X2. Joining a directory and a file name that has no "/" with "/" and
    splitting the result gives the directory and the name back. *)
Theorem split_of_join (dir name : string) :
  ~ hasSeparator name ->
  SplitPathToDirAndFilename (dir +:+ "/" +:+ name) = (dir, name).
Proof. apply SplitPath_join. Qed.

Lemma empty_has_no_separator : ~ hasSeparator EmptyString.
Proof.
  intros (a & b & H). destruct a; [|discriminate H].
  rewrite append_nil_l in H. discriminate H.
Qed.

Lemma split_of_join_witness :
  SplitPathToDirAndFilename ("backups/backups/my-app/cars" +:+ "/" +:+ "a")
  = ("backups/backups/my-app/cars", "a").
Proof.
  apply (split_of_join "backups/backups/my-app/cars" "a").
  intros (a & b & H).
  exact (LastIndex_absent "a" "/" ltac:(vm_compute; reflexivity) a b H).
Defined.

(** X3. In one bucket of a store, different keys have different storage
    paths. *)
Theorem storage_path_injective_in_key (w : WebDAVObjectStore)
    (bucket key1 key2 : string) :
  toStoragePath w bucket key1 = toStoragePath w bucket key2 -> key1 = key2.
Proof.
  unfold toStoragePath. intros H.
  now repeat apply append_inv_head in H.
Qed.

Lemma storage_path_injective_in_key_witness :
  "my-app/cars/a" = "my-app/cars/a".
Proof.
  apply (storage_path_injective_in_key scenarioStore "backups"
           "my-app/cars/a" "my-app/cars/a").
  reflexivity.
Defined.

(** * Further properties of the initialisation *)

(** X4. After [Init] the delimiter of the store is never empty: it is "/"
    when the configuration has no "delimiter" or an empty one, and the
    configured delimiter otherwise. *)
Theorem init_delimiter (w : WebDAVObjectStore) (config : gmap string string) :
  delimiter (Init w config) <> EmptyString
  /\ (config !! "delimiter" = None -> delimiter (Init w config) = "/")
  /\ (config !! "delimiter" = Some EmptyString -> delimiter (Init w config) = "/")
  /\ (forall d, d <> EmptyString -> config !! "delimiter" = Some d ->
                delimiter (Init w config) = d).
Proof.
  assert (Hd : delimiter (Init w config)
               = if String.eqb (configGet config "delimiter") EmptyString
                 then "/" else configGet config "delimiter") by reflexivity.
  rewrite Hd. clear Hd. unfold configGet.
  split; [|split; [|split]].
  - destruct (String.eqb_spec (default EmptyString (config !! "delimiter"))
                              EmptyString); [discriminate | assumption].
  - intros ->. reflexivity.
  - intros ->. reflexivity.
  - intros d Hd ->. change (default EmptyString (Some d)) with d.
    destruct (String.eqb_spec d EmptyString) as [Heq|_];
      [now elim Hd | reflexivity].
Qed.

Lemma init_delimiter_witness :
  delimiter (Init NewWebDAVObjectStore {[ "root" := "https://dav.example" ]}) = "/"
  /\ delimiter (Init NewWebDAVObjectStore {[ "delimiter" := "-" ]}) = "-".
Proof.
  split.
  - destruct (init_delimiter NewWebDAVObjectStore
                {[ "root" := "https://dav.example" ]}) as (_ & H & _).
    apply H. vm_compute. reflexivity.
  - destruct (init_delimiter NewWebDAVObjectStore {[ "delimiter" := "-" ]})
      as (_ & _ & _ & H).
    apply (H "-"); [discriminate | vm_compute; reflexivity].
Defined.

(** X5. When the configured buckets directory does not begin with "/",
    [Init] stores it with "/" appended, unless it is empty or missing,
    which stores the empty string; the stored value is then empty or
    ends with "/". The "/" is appended also to a value that ends with
    "/" already. *)
Theorem init_buckets_dir_without_leading_slash
    (w : WebDAVObjectStore) (config : gmap string string) :
  HasPrefix (configGet config "bucketsDir") "/" = false ->
  (config !! "bucketsDir" = None -> bucketsDir (Init w config) = EmptyString)
  /\ (forall d, config !! "bucketsDir" = Some d -> d <> EmptyString ->
                bucketsDir (Init w config) = d +:+ "/")
  /\ (bucketsDir (Init w config) = EmptyString
      \/ HasSuffix (bucketsDir (Init w config)) "/" = true).
Proof.
  intros H. split; [|split].
  - intros E. rewrite Init_bucketsDir. unfold configGet. now rewrite E.
  - intros d E Hd. rewrite Init_bucketsDir. unfold configGet in *.
    rewrite E in *. change (default EmptyString (Some d)) with d in *.
    cbv zeta. rewrite H.
    destruct (String.eqb_spec d EmptyString) as [Heq|_];
      [now elim Hd | reflexivity].
  - now apply Init_bucketsDir_terminated.
Qed.

Lemma init_buckets_dir_without_leading_slash_witness :
  bucketsDir (Init NewWebDAVObjectStore {[ "bucketsDir" := "backups/" ]})
  = "backups/" +:+ "/".
Proof.
  destruct (init_buckets_dir_without_leading_slash NewWebDAVObjectStore
              {[ "bucketsDir" := "backups/" ]}) as (_ & H & _).
  - vm_compute. reflexivity.
  - apply (H "backups/"); [vm_compute; reflexivity | discriminate].
Defined.

(** X6. A store that prints infos prints warnings too; after [Init] with
    a configuration without "logLevel", warnings are printed and infos
    are not. *)
Theorem logging_levels (w : WebDAVObjectStore) (config : gmap string string) :
  (PrintInfos w = true -> PrintWarnings w = true)
  /\ (config !! "logLevel" = None ->
      PrintWarnings (Init w config) = true /\ PrintInfos (Init w config) = false).
Proof.
  split.
  - unfold PrintInfos, PrintWarnings.
    intros [H|H]%orb_true_iff; rewrite H; now rewrite ?orb_true_r.
  - intros E. unfold PrintInfos, PrintWarnings, Init, configGet.
    cbn [logLevel]. rewrite E. split; reflexivity.
Qed.

Lemma logging_levels_witness :
  PrintWarnings (Init NewWebDAVObjectStore {[ "logLevel" := "debug" ]}) = true
  /\ (PrintWarnings (Init NewWebDAVObjectStore ∅) = true
      /\ PrintInfos (Init NewWebDAVObjectStore ∅) = false).
Proof.
  split.
  - destruct (logging_levels
                (Init NewWebDAVObjectStore {[ "logLevel" := "debug" ]}) ∅)
      as [H _].
    apply H. vm_compute. reflexivity.
  - destruct (logging_levels NewWebDAVObjectStore ∅) as [_ H].
    apply H. reflexivity.
Defined.

(** * Further properties of the object operations *)

(** X7. When the connection cannot be made, every operation returns the
    error of [Connect] with an empty result, and the operations that
    write leave the server as it is. *)
Theorem connect_error_is_returned
    {Error Server : Type} {T : Transport Error Server} (srv : Server)
    (w : WebDAVObjectStore) (bucket key prefix delim body : string)
    (fuel : nat) (e : Error) :
  Connect srv (root w) (user w) (password w) = Some e ->
  PutObject w srv bucket key body = (srv, Some e)
  /\ ObjectExists w srv bucket key = (false, Some e)
  /\ GetObject w srv bucket key = (EmptyString, Some e)
  /\ ListCommonPrefixes fuel w srv bucket prefix delim = Some ([], Some e)
  /\ ListObjects w srv bucket prefix = ([], Some e)
  /\ DeleteObject w srv bucket key = (srv, Some e).
Proof.
  intros H.
  unfold PutObject, ObjectExists, GetObject, ListCommonPrefixes, ListObjects,
    DeleteObject.
  destruct (SplitPathToDirAndFilename (toStoragePath w bucket key)) as [dir name].
  rewrite H. auto 10.
Qed.

Lemma connect_error_is_returned_witness :
  PutObject scenarioStore offlineServer "backups" "k" "1"
    = (offlineServer, Some (Mem.Failure "connection refused"))
  /\ ObjectExists scenarioStore offlineServer "backups" "k"
     = (false, Some (Mem.Failure "connection refused"))
  /\ GetObject scenarioStore offlineServer "backups" "k"
     = (EmptyString, Some (Mem.Failure "connection refused"))
  /\ ListCommonPrefixes 3 scenarioStore offlineServer "backups" "my-app" "/"
     = Some ([], Some (Mem.Failure "connection refused"))
  /\ ListObjects scenarioStore offlineServer "backups" "my-app"
     = ([], Some (Mem.Failure "connection refused"))
  /\ DeleteObject scenarioStore offlineServer "backups" "k"
     = (offlineServer, Some (Mem.Failure "connection refused")).
Proof.
  apply (connect_error_is_returned (T := Mem.transport) offlineServer
           scenarioStore "backups" "k" "my-app" "/" "1" 3
           (Mem.Failure "connection refused")).
  reflexivity.
Defined.

(** X8. After a successful connection [PutObject] first creates the
    directory of the storage path (the path up to its last "/"); an
    error of that step is returned and nothing is written; otherwise the
    outcome is that of writing the body to the storage path. *)
Theorem put_object_steps
    {Error Server : Type} {T : Transport Error Server} (srv : Server)
    (w : WebDAVObjectStore) (bucket key body : string) :
  let path := toStoragePath w bucket key in
  let dir := fst (SplitPathToDirAndFilename path) in
  let srv1 := fst (MkdirAll srv dir) in
  Connect srv (root w) (user w) (password w) = None ->
  (hasSeparator path ->
   exists name, ~ hasSeparator name /\ path = dir +:+ "/" +:+ name)
  /\ (forall e, snd (MkdirAll srv dir) = Some e ->
                PutObject w srv bucket key body = (srv1, Some e))
  /\ (snd (MkdirAll srv dir) = None ->
      PutObject w srv bucket key body = WriteStream srv1 path body).
Proof.
  intros path dir srv1 Hconn. split.
  - intros Hsep. exists (snd (SplitPathToDirAndFilename path)). split.
    + apply SplitPath_name_clean.
    + subst dir. pose proof (SplitPath_with_separator path Hsep) as R.
      now destruct (SplitPathToDirAndFilename path).
  - subst srv1 dir. unfold PutObject. fold path. rewrite Hconn.
    destruct (SplitPathToDirAndFilename path) as [dir name]. cbn [fst].
    destruct (MkdirAll srv dir) as [srv1 err]. cbn [fst snd].
    split; [intros e -> | intros ->]; reflexivity.
Qed.

Lemma put_object_steps_witness :
  PutObject nestedStore (Mem.healthy []) "bkt" "a/b/f" "1"
  = (Mem.healthy [Dir "bkt" [Dir "a" [Dir "b" [File "f"]]]], None).
Proof.
  destruct (put_object_steps (T := Mem.transport) (Mem.healthy []) nestedStore
              "bkt" "a/b/f" "1" eq_refl) as (_ & _ & H).
  exact (H eq_refl).
Defined.

(** X9. When the parent directory of the storage path cannot be read,
    [ObjectExists] answers [false]; the error is dropped when it is the
    not-found condition and returned otherwise. *)
Theorem object_exists_read_error
    {Error Server : Type} {T : Transport Error Server} (srv : Server)
    (w : WebDAVObjectStore) (bucket key : string)
    (files : list FileInfo) (e : Error) :
  Connect srv (root w) (user w) (password w) = None ->
  ReadDir srv (fst (SplitPathToDirAndFilename (toStoragePath w bucket key)))
  = (files, Some e) ->
  ObjectExists w srv bucket key
  = (false, if IsErrNotFound e then None else Some e).
Proof.
  intros Hconn Hread. unfold ObjectExists. rewrite Hconn.
  destruct (SplitPathToDirAndFilename (toStoragePath w bucket key)) as [dir name].
  cbn [fst] in Hread. rewrite Hread. now destruct (IsErrNotFound e).
Qed.

Lemma object_exists_read_error_witness :
  ObjectExists scenarioStore scenarioServer "backups" "never/written"
    = (false, None)
  /\ ObjectExists scenarioStore partialServer "backups" "my-app/trains/b"
     = (false, Some (Mem.Failure "forbidden")).
Proof.
  split.
  - exact (object_exists_read_error (T := Mem.transport) scenarioServer
             scenarioStore "backups" "never/written" [] Mem.NotFound
             eq_refl eq_refl).
  - exact (object_exists_read_error (T := Mem.transport) partialServer
             scenarioStore "backups" "my-app/trains/b" []
             (Mem.Failure "forbidden") eq_refl eq_refl).
Defined.

(** X10. When the parent directory of the storage path is read,
    [ObjectExists] returns no error, and it answers [true] exactly when
    the listing has an entry that is not a directory and whose name is
    the part of the storage path after its last "/"; a directory of that
    name does not count. *)
Theorem object_exists_iff_listed
    {Error Server : Type} {T : Transport Error Server} (srv : Server)
    (w : WebDAVObjectStore) (bucket key : string) (files : list FileInfo) :
  let path := toStoragePath w bucket key in
  Connect srv (root w) (user w) (password w) = None ->
  ReadDir srv (fst (SplitPathToDirAndFilename path)) = (files, None) ->
  exists answer,
    ObjectExists w srv bucket key = (answer, None)
    /\ (answer = true <->
        exists file, In file files /\ IsDir file = false
                     /\ Name file = snd (SplitPathToDirAndFilename path)).
Proof.
  intros path Hconn Hread. unfold ObjectExists. fold path. rewrite Hconn.
  destruct (SplitPathToDirAndFilename path) as [dir name].
  cbn [fst snd] in *. rewrite Hread. eexists. split; [reflexivity|].
  rewrite existsb_exists. split.
  - intros (file & Hin & [Hd Hn]%andb_true_iff). exists file.
    repeat split; auto.
    + now destruct (IsDir file).
    + now apply String.eqb_eq.
  - intros (file & Hin & Hd & Hn). exists file. split; [exact Hin|].
    rewrite Hd. cbn [negb andb]. now apply String.eqb_eq.
Qed.

Lemma object_exists_iff_listed_witness :
  exists answer,
    ObjectExists scenarioStore scenarioServer "backups" "my-app/cars" = (answer, None)
    /\ (answer = true <->
        exists file, In file [mkFileInfo "cars" true; mkFileInfo "trains" true]
                     /\ IsDir file = false /\ Name file = "cars").
Proof.
  exact (object_exists_iff_listed (T := Mem.transport) scenarioServer
           scenarioStore "backups" "my-app/cars"
           [mkFileInfo "cars" true; mkFileInfo "trains" true] eq_refl eq_refl).
Defined.

(** * Further properties of the listings *)

Lemma normalizedPrefix_idempotent prefix delim :
  normalizedPrefix (normalizedPrefix prefix delim) delim
  = normalizedPrefix prefix delim.
Proof.
  assert (Hstep : forall p, normalizedPrefix p delim
                  = if negb (String.eqb p EmptyString) && negb (HasSuffix p delim)
                    then p +:+ delim else p) by reflexivity.
  rewrite (Hstep prefix).
  destruct (String.eqb prefix EmptyString) eqn:E0; cbn [negb andb].
  { rewrite Hstep, E0. reflexivity. }
  destruct (HasSuffix prefix delim) eqn:E; cbn [negb].
  - rewrite Hstep, E0, E. reflexivity.
  - rewrite Hstep, HasSuffix_append. cbn [negb]. now rewrite andb_false_r.
Qed.

(** X11. A prefix may be given with or without the delimiter at its end:
    [ListObjects] and [ListCommonPrefixes] give the same outcome for a
    prefix and for the prefix with the delimiter appended where it was
    missing. *)
Theorem listing_prefix_trailing_delimiter
    {Error Server : Type} {T : Transport Error Server} (srv : Server)
    (w : WebDAVObjectStore) (bucket prefix delim : string) (fuel : nat) :
  ListObjects w srv bucket (normalizedPrefix prefix (delimiter w))
    = ListObjects w srv bucket prefix
  /\ ListCommonPrefixes fuel w srv bucket (normalizedPrefix prefix delim) delim
     = ListCommonPrefixes fuel w srv bucket prefix delim.
Proof.
  split.
  - unfold ListObjects.
    fold (normalizedPrefix (normalizedPrefix prefix (delimiter w)) (delimiter w)).
    now rewrite normalizedPrefix_idempotent.
  - unfold ListCommonPrefixes.
    fold (normalizedPrefix (normalizedPrefix prefix delim) delim).
    now rewrite normalizedPrefix_idempotent.
Qed.

(** X12. What [ListObjects] returns when the connection is made and the
    directory of the bucket and the normalised prefix is read: for every
    entry of that one directory that is not a directory, in the order of
    the listing, the normalised prefix followed by the name of the entry
    and the delimiter; so as many keys as the directory has files, and
    none for a subdirectory or anything in it. *)
Theorem list_objects_of_listing
    {Error Server : Type} {T : Transport Error Server} (srv : Server)
    (w : WebDAVObjectStore) (bucket prefix : string) (files : list FileInfo) :
  Connect srv (root w) (user w) (password w) = None ->
  ReadDir srv (objectsRoot w bucket prefix) = (files, None) ->
  ListObjects w srv bucket prefix
  = (map (fun file => normalizedPrefix prefix (delimiter w) +:+ Name file
                        +:+ delimiter w)
         (List.filter (fun file => negb (IsDir file)) files), None)
  /\ (forall file, In file files -> IsDir file = true ->
        (forall other, In other files -> IsDir other = false ->
                       Name other <> Name file) ->
        ~ In (normalizedPrefix prefix (delimiter w) +:+ Name file +:+ delimiter w)
             (fst (ListObjects w srv bucket prefix))).
Proof.
  intros Hconn Hread.
  pose proof (ListObjects_read srv w bucket prefix files Hconn Hread) as R.
  split; [exact R|].
  intros file Hin Hdir Hother. rewrite R. cbn [fst].
  intros (other & Heq & [Ho Hnd]%filter_In)%in_map_iff.
  apply append_inv_head in Heq.
  apply (Hother other Ho); [now destruct (IsDir other)|].
  assert (L : String.length (Name other) = String.length (Name file)).
  { apply (f_equal String.length) in Heq. rewrite !length_append in Heq. lia. }
  rewrite <- (substring_append (Name other) (delimiter w)).
  rewrite <- (substring_append (Name file) (delimiter w)).
  now rewrite Heq, L.
Qed.

Lemma list_objects_of_listing_witness :
  ListObjects scenarioStore scenarioServer "backups" "my-app"
  = (map (fun file => normalizedPrefix "my-app" "/" +:+ Name file +:+ "/")
         (List.filter (fun file => negb (IsDir file))
                      [mkFileInfo "cars" true; mkFileInfo "trains" true]), None).
Proof.
  exact (proj1 (list_objects_of_listing (T := Mem.transport) scenarioServer
                  scenarioStore "backups" "my-app"
                  [mkFileInfo "cars" true; mkFileInfo "trains" true]
                  eq_refl eq_refl)).
Defined.

(** X13. With the delimiter "/", on a server whose listings have no empty
    names, no key that [ListObjects] returns is found by [ObjectExists]:
    every returned key ends with "/", so the name looked for is empty. *)
Theorem listed_keys_are_not_found
    {Error Server : Type} {T : Transport Error Server} (srv : Server)
    (w : WebDAVObjectStore) (bucket prefix key : string) :
  delimiter w = "/" ->
  namesNonEmpty srv ->
  In key (fst (ListObjects w srv bucket prefix)) ->
  fst (ObjectExists w srv bucket key) = false.
Proof.
  intros Hd Hnames Hin.
  assert (Hkey : exists r, key = r +:+ "/").
  { unfold ListObjects in Hin.
    destruct (Connect srv (root w) (user w) (password w)) as [e|];
      [contradiction|].
    fold (normalizedPrefix prefix (delimiter w)) in Hin.
    fold (objectsRoot w bucket prefix) in Hin.
    destruct (ReadDir srv (objectsRoot w bucket prefix)) as [files [e|]].
    - destruct (IsErrNotFound e); contradiction.
    - replace (objectsRoot w bucket prefix)
        with ((bucketsDir w +:+ bucket +:+ delimiter w)
                +:+ normalizedPrefix prefix (delimiter w)) in Hin
        by (unfold objectsRoot; now rewrite !append_assoc).
      rewrite listObjectsLoop_spec in Hin. cbn [fst app] in Hin.
      apply in_map_iff in Hin as (file & <- & _). rewrite Hd.
      exists (normalizedPrefix prefix "/" +:+ Name file).
      now rewrite append_assoc. }
  destruct Hkey as [r ->]. unfold ObjectExists.
  replace (toStoragePath w bucket (r +:+ "/"))
    with ((bucketsDir w +:+ bucket +:+ delimiter w +:+ r) +:+ "/" +:+ EmptyString)
    by (unfold toStoragePath; now rewrite !append_assoc, append_nil_r).
  rewrite (SplitPath_join _ EmptyString empty_has_no_separator).
  destruct (Connect srv (root w) (user w) (password w)) as [e|]; [reflexivity|].
  pose proof (Hnames (bucketsDir w +:+ bucket +:+ delimiter w +:+ r)) as Hn.
  destruct (ReadDir srv (bucketsDir w +:+ bucket +:+ delimiter w +:+ r))
    as [files [e|]]; cbn [fst] in *.
  - now destruct (IsErrNotFound e).
  - destruct (existsb _ files) eqn:E; [|reflexivity].
    apply existsb_exists in E as (file & Hf & [_ He]%andb_true_iff).
    apply String.eqb_eq in He. now elim (Hn file Hf).
Qed.

Lemma Mem_childrenOf_In s t cs :
  Mem.childrenOf s t = Some cs -> exists s', In (Dir s' cs) t.
Proof.
  unfold Mem.childrenOf. destruct (find (Mem.isDirNamed s) t) as [n|] eqn:E;
    [|discriminate].
  apply find_some in E as [Hin _]. destruct n as [f|s' cs']; [discriminate|].
  intros [= <-]. now exists s'.
Qed.

Lemma Mem_lookupDir_named segs : forall t cs,
  forallb namedNode t = true ->
  Mem.lookupDir segs t = Some cs ->
  forallb namedNode cs = true.
Proof.
  induction segs as [|s segs IH]; intros t cs Ht; simpl.
  - now intros [= <-].
  - destruct (Mem.childrenOf s t) as [cs'|] eqn:E; [|discriminate].
    apply IH. apply Mem_childrenOf_In in E as [s' Hin].
    rewrite forallb_forall in Ht. specialize (Ht _ Hin).
    simpl in Ht. now apply andb_true_iff in Ht as [_ Ht].
Qed.

(** An in-memory server whose tree has no empty names lists none. *)
Lemma Mem_namesNonEmpty (srv : Mem.server) :
  forallb namedNode (Mem.tree srv) = true -> namesNonEmpty srv.
Proof.
  intros Ht path file. cbn [ReadDir Mem.transport]. unfold Mem.readDir.
  destruct (Mem.listed _ _); [intros []|].
  destruct (Mem.lookupDir _ _) as [cs|] eqn:E; [|intros []].
  cbn [fst]. unfold listing. intros (n & <- & Hn)%in_map_iff.
  pose proof (Mem_lookupDir_named _ _ _ Ht E) as Hcs.
  rewrite forallb_forall in Hcs. specialize (Hcs n Hn).
  destruct n; simpl in *; apply andb_true_iff in Hcs as [Hcs _];
    now apply negb_true_iff, String.eqb_neq in Hcs.
Qed.

Lemma listed_keys_are_not_found_witness :
  fst (ObjectExists scenarioStore scenarioServer "backups" "my-app/cars/a/") = false.
Proof.
  apply (listed_keys_are_not_found (T := Mem.transport) scenarioServer
           scenarioStore "backups" "my-app/cars" "my-app/cars/a/").
  - reflexivity.
  - apply Mem_namesNonEmpty. vm_compute. reflexivity.
  - vm_compute. left. reflexivity.
Defined.

(** * Further properties of the native-delimiter listing *)

(** X14. With delimiter "/", on a served tree, every returned common
    prefix begins with the normalised prefix of the call and ends with
    "/". *)
Theorem native_prefixes_extend_prefix
    {Error Server : Type} {T : Transport Error Server} (srv : Server)
    (w : WebDAVObjectStore) (bucket prefix : string) (t : list node) (fuel : nat) :
  Connect srv (root w) (user w) (password w) = None ->
  serves srv (listingRoot w bucket prefix "/") t ->
  (depth t < fuel)%nat ->
  exists dirs,
    ListCommonPrefixes fuel w srv bucket prefix "/" = Some (dirs, None)
    /\ forall x, In x dirs ->
         exists r, x = normalizedPrefix prefix "/" +:+ r +:+ "/".
Proof.
  intros Hconn Hs Hfuel. eexists. split.
  { exact (ListCommonPrefixes_native srv w bucket prefix t fuel Hconn Hs Hfuel). }
  intros x (q & cs & Hq & _ & ->)%In_postOrderPrefixes.
  destruct (DirAt_ends_with_separator _ _ _ _ Hq) as [r ->].
  exists r. rewrite listingRoot_native, append_assoc. apply drop_append.
Qed.

Lemma native_prefixes_extend_prefix_witness :
  exists dirs,
    ListCommonPrefixes 3 scenarioStore scenarioServer "backups" "" "/"
      = Some (dirs, None)
    /\ forall x, In x dirs -> exists r, x = normalizedPrefix "" "/" +:+ r +:+ "/".
Proof.
  apply (native_prefixes_extend_prefix scenarioServer scenarioStore "backups" ""
                                       scenarioTree 3).
  - reflexivity.
  - exact scenarioServer_serves.
  - vm_compute. lia.
Defined.

(** X15. With delimiter "/", on a served tree, the returned list is in
    post-order: for every directory, in the order of the listing, first
    what its subdirectories contribute and then the directory itself, if
    one of its direct entries is not a directory. Directories of every
    depth below the listing root are in the list, not only the ones
    directly below it. *)
Theorem native_listing_is_post_order
    {Error Server : Type} {T : Transport Error Server} (srv : Server)
    (w : WebDAVObjectStore) (bucket prefix : string) (t : list node) (fuel : nat) :
  Connect srv (root w) (user w) (password w) = None ->
  serves srv (listingRoot w bucket prefix "/") t ->
  (depth t < fuel)%nat ->
  ListCommonPrefixes fuel w srv bucket prefix "/"
  = Some (postOrderPrefixes (String.length (cutPrefixOf w bucket "/"))
                            (listingRoot w bucket prefix "/") t, None).
Proof. apply ListCommonPrefixes_native. Qed.

Lemma native_listing_is_post_order_witness :
  ListCommonPrefixes 3 scenarioStore scenarioServer "backups" "" "/"
  = Some (["my-app/cars/"; "my-app/trains/"; "some-other-app/bridges/"], None).
Proof.
  apply (native_listing_is_post_order scenarioServer scenarioStore "backups" ""
                                      scenarioTree 3).
  - reflexivity.
  - exact scenarioServer_serves.
  - vm_compute. lia.
Defined.

Section NativeSoundness.

Context {Error Server : Type} {T : Transport Error Server}.
Variable srv : Server.
Variables completePrefix prefixToCut : string.

Local Abbreviation sound := (allHoldObject srv prefixToCut).

Lemma addDirsLoop_sound self parent :
  (forall acc subDirs path out flag err,
     sound acc ->
     self acc subDirs path = Some ((out, flag), err) ->
     sound out /\ (flag = false -> hasFile subDirs)) ->
  forall inputs acc flag0 out flag err,
    sound acc ->
    addDirsLoop srv self completePrefix prefixToCut parent acc flag0 inputs
    = Some ((out, flag), err) ->
    sound out /\ (flag = false -> flag0 = false \/ hasFile inputs).
Proof.
  intros Hself. induction inputs as [|file rest IH];
    intros acc flag0 out flag err Hacc; cbn [addDirsLoop].
  - intros [= <- <- <-]. auto.
  - assert (Hnext : forall acc' flag0',
              sound acc' ->
              addDirsLoop srv self completePrefix prefixToCut parent acc' flag0' rest
              = Some ((out, flag), err) ->
              sound out
              /\ (flag = false -> flag0' = false \/ hasFile (file :: rest))).
    { intros acc' flag0' Hacc' H. destruct (IH _ _ _ _ _ Hacc' H) as [Ho Hf].
      split; [exact Ho|]. intros E. destruct (Hf E) as [?|(f & Hin & Hd)]; auto.
      right. exists f. split; [now right | exact Hd]. }
    destruct (HasPrefix (parent +:+ Name file +:+ "/") completePrefix);
      cbn [negb]; [|now apply Hnext].
    destruct (CutPrefix (parent +:+ Name file +:+ "/") prefixToCut)
      as [commonPrefix found] eqn:Hcut.
    destruct found; cbn [negb]; [|now apply Hnext].
    apply CutPrefix_found in Hcut.
    destruct (IsDir file) eqn:Hdir.
    + destruct (ReadDir srv (parent +:+ Name file +:+ "/")) as [subDirs [e|]] eqn:Hread.
      { intros [= <- <- <-]. auto. }
      destruct (self acc subDirs (parent +:+ Name file +:+ "/"))
        as [[[out' flag'] [e|]]|] eqn:Hrec; [| |discriminate].
      * destruct (Hself _ _ _ _ _ _ Hacc Hrec) as [Ho _].
        intros [= <- <- <-]. auto.
      * destruct (Hself _ _ _ _ _ _ Hacc Hrec) as [Ho Hf].
        destruct flag'; cbn [negb]; [now apply Hnext|].
        apply Hnext. intros x [Hx| [<-|[]]]%in_app_iff; [now apply Ho|].
        exists subDirs. rewrite <- Hcut. split; [exact Hread | now apply Hf].
    + intros H. destruct (Hnext _ _ Hacc H) as [Ho Hf]. split; [exact Ho|].
      intros _. right. exists file. split; [now left | exact Hdir].
Qed.

Lemma AddDirsWithCommonPrefixes_sound fuel :
  forall acc inputs parent out flag err,
    sound acc ->
    AddDirsWithCommonPrefixes fuel srv acc inputs completePrefix prefixToCut parent
    = Some ((out, flag), err) ->
    sound out /\ (flag = false -> hasFile inputs).
Proof.
  induction fuel as [|fuel IH]; intros acc inputs parent out flag err Hacc;
    cbn [AddDirsWithCommonPrefixes]; [discriminate|].
  intros H. apply addDirsLoop_sound in H as [Ho Hf]; auto.
  split; [exact Ho|]. intros E. destruct (Hf E) as [?|?]; [discriminate | auto].
Qed.

End NativeSoundness.

(** X16. With delimiter "/", on any server and whatever the outcome, also
    when the walk ends with an error of a subdirectory: every prefix in
    the returned list names a directory that was read and has a direct
    entry that is not a directory. *)
Theorem native_results_hold_objects
    {Error Server : Type} {T : Transport Error Server} (srv : Server)
    (w : WebDAVObjectStore) (bucket prefix : string) (fuel : nat)
    (dirs : list string) (err : option Error) :
  ListCommonPrefixes fuel w srv bucket prefix "/" = Some (dirs, err) ->
  forall x, In x dirs -> holdsObject srv (cutPrefixOf w bucket "/") x.
Proof.
  unfold ListCommonPrefixes.
  destruct (Connect srv (root w) (user w) (password w)) as [e|].
  { intros [= <- _] x []. }
  change (String.eqb "/" "/") with true. cbv iota.
  destruct (ReadDir srv _) as [rootSubdirs [e|]].
  { destruct (IsErrNotFound e); intros [= <- _] x []. }
  destruct (AddDirsWithCommonPrefixes fuel srv [] rootSubdirs _ _ _)
    as [[[out flag] e]|] eqn:H; [|discriminate].
  apply AddDirsWithCommonPrefixes_sound in H as [Ho _]; [|intros x []].
  destruct e; intros [= <- _]; exact Ho.
Qed.

Lemma native_results_hold_objects_witness :
  ListCommonPrefixes 3 scenarioStore partialServer "backups" "my-app" "/"
    = Some (["my-app/cars/"], Some (Mem.Failure "forbidden"))
  /\ holdsObject partialServer (cutPrefixOf scenarioStore "backups" "/")
                 "my-app/cars/".
Proof.
  split; [vm_compute; reflexivity|].
  apply (native_results_hold_objects (T := Mem.transport) partialServer
           scenarioStore "backups" "my-app" 3 ["my-app/cars/"]
           (Some (Mem.Failure "forbidden"))).
  - vm_compute. reflexivity.
  - now left.
Defined.

(** * Further properties of the non-native listing *)

Section FullWalk.

Context {Error Server : Type} {T : Transport Error Server}.
Variable srv : Server.

Lemma getAllFilesLoop_served self parent rest :
  (forall s cs, In (Dir s cs) rest ->
     ReadDir srv (parent +:+ s +:+ "/") = (listing cs, None)
     /\ forall acc,
          self acc (listing cs) (parent +:+ s +:+ "/")
          = Some (acc ++ allFilePaths (parent +:+ s +:+ "/") cs, None)) ->
  forall acc,
    getAllFilesLoop srv self parent acc (listing rest)
    = Some (acc ++ allFilePaths parent rest, None).
Proof.
  induction rest as [|n rest IH]; intros Hself acc.
  - simpl. now rewrite app_nil_r.
  - assert (Hrest : forall s cs, In (Dir s cs) rest ->
       ReadDir srv (parent +:+ s +:+ "/") = (listing cs, None)
       /\ forall acc,
            self acc (listing cs) (parent +:+ s +:+ "/")
            = Some (acc ++ allFilePaths (parent +:+ s +:+ "/") cs, None))
      by (intros s cs H; apply Hself; now right).
    specialize (IH Hrest).
    cbn [listing map getAllFilesLoop]. fold (listing rest).
    cbn [info Name IsDir].
    destruct n as [f|s cs]; cbn [nodeIsDir nodeName].
    + rewrite IH. unfold allFilePaths. simpl. now rewrite <- app_assoc.
    + destruct (Hself s cs (or_introl eq_refl)) as [Hread Hrec].
      rewrite Hread, Hrec, IH. unfold allFilePaths. simpl.
      now rewrite <- app_assoc.
Qed.

Lemma GetAllFiles_served parent t :
  serves srv parent t ->
  forall fuel acc,
    (depth t < fuel)%nat ->
    GetAllFiles fuel srv acc (listing t) parent
    = Some (acc ++ allFilePaths parent t, None).
Proof.
  induction 1 as [path t Hread Hsub IH]. intros fuel acc Hfuel.
  destruct fuel as [|fuel]; [lia|]. cbn [GetAllFiles].
  apply getAllFilesLoop_served. intros s cs Hin. split.
  - apply serves_ReadDir. now apply Hsub.
  - intros acc'. apply IH; [exact Hin|].
    pose proof (depth_child s cs t Hin). lia.
Qed.

End FullWalk.

(** X17. On a served tree and with a recursion budget above its depth,
    [GetAllFiles] returns, without error, the accumulated list followed
    by one path for every non-directory entry of the tree at any depth,
    in depth-first order; each path is the path of the directory, the
    name of the entry and "/". *)
Theorem get_all_files_walks_the_tree
    {Error Server : Type} {T : Transport Error Server} (srv : Server)
    (parent : string) (t : list node) (acc : list string) (fuel : nat) :
  serves srv parent t ->
  (depth t < fuel)%nat ->
  GetAllFiles fuel srv acc (listing t) parent
  = Some (acc ++ allFilePaths parent t, None).
Proof. intros Hs Hfuel. now apply GetAllFiles_served. Qed.

Lemma get_all_files_walks_the_tree_witness :
  GetAllFiles 3 scenarioServer ["x"] (listing scenarioTree) "backups/backups/"
  = Some (["x"; "backups/backups/my-app/cars/a/";
           "backups/backups/my-app/trains/b/";
           "backups/backups/some-other-app/bridges/c/"], None).
Proof.
  apply (get_all_files_walks_the_tree scenarioServer "backups/backups/"
                                      scenarioTree ["x"] 3).
  - exact scenarioServer_serves.
  - vm_compute. lia.
Defined.

(** X18. With a delimiter other than "/", [ListCommonPrefixes] lists the
    directory named by the bucket alone (without the buckets directory)
    and walks all of it; on a tree served there, the result is what
    [DeterminePrefixesFromFilesWithDelimiter] makes of the paths of all
    its files. *)
Theorem non_native_listing_regroups_full_walk
    {Error Server : Type} {T : Transport Error Server} (srv : Server)
    (w : WebDAVObjectStore) (bucket prefix delim : string)
    (t : list node) (fuel : nat) :
  delim <> "/" ->
  Connect srv (root w) (user w) (password w) = None ->
  serves srv bucket t ->
  (depth t < fuel)%nat ->
  ListCommonPrefixes fuel w srv bucket prefix delim
  = Some (DeterminePrefixesFromFilesWithDelimiter
            (allFilePaths bucket t) delim (cutPrefixOf w bucket delim), None).
Proof.
  intros Hd Hconn Hs Hfuel. unfold ListCommonPrefixes. rewrite Hconn.
  destruct (String.eqb_spec delim "/") as [Heq|_]; [contradiction|].
  rewrite (serves_ReadDir _ _ _ Hs).
  now rewrite (GetAllFiles_served srv bucket t Hs fuel [] Hfuel).
Qed.

Lemma dashServer_serves : serves dashServer "b/" [File "-x-y"].
Proof. serve_tree. Qed.

Lemma non_native_listing_regroups_full_walk_witness :
  ListCommonPrefixes 1 dashStore dashServer "b/" "" "-"
  = Some (DeterminePrefixesFromFilesWithDelimiter ["b/-x-y/"] "-" "b/-", None).
Proof.
  apply (non_native_listing_regroups_full_walk dashServer dashStore "b/" "" "-"
                                               [File "-x-y"] 1).
  - discriminate.
  - reflexivity.
  - exact dashServer_serves.
  - vm_compute. lia.
Defined.

Section Regrouping.

Variables delim prefixToCut : string.

Lemma determineStep_candidate m ps file :
  determineStep delim prefixToCut (m, ps) file
  = match prefixCandidate delim prefixToCut file with
    | None => (m, ps)
    | Some c =>
        if default false (m !! c) then (m, ps)
        else (<[c := true]> m, ps ++ [c])
    end.
Proof.
  unfold determineStep, prefixCandidate.
  destruct (CutPrefix file prefixToCut) as [commonPrefix found].
  destruct found; cbn [negb]; [|reflexivity].
  destruct (LastIndex commonPrefix delim =? -1); [reflexivity|].
  now destruct (default false (m !! _)).
Qed.

Local Abbreviation inv := regroupInvariant.

Lemma NoDup_snoc (ps : list string) c :
  List.NoDup ps -> ~ In c ps -> List.NoDup (ps ++ [c]).
Proof.
  induction 1 as [|x ps Hx Hps IH]; intros Hc; simpl.
  - constructor; [intros [] | constructor].
  - constructor.
    + intros [H|[<-|[]]]%in_app_iff; [contradiction|]. apply Hc. now left.
    + apply IH. intros H. apply Hc. now right.
Qed.

Lemma determineStep_inv st file :
  inv st ->
  inv (determineStep delim prefixToCut st file)
  /\ forall x, In x (snd (determineStep delim prefixToCut st file))
               <-> In x (snd st) \/ prefixCandidate delim prefixToCut file = Some x.
Proof.
  destruct st as [m ps]. intros [Hm Hnd]. cbn [fst snd] in *.
  rewrite determineStep_candidate.
  destruct (prefixCandidate delim prefixToCut file) as [c|].
  - destruct (default false (m !! c)) eqn:E.
    + split; [split; assumption|]. cbn [snd]. intros x. split; [auto|].
      intros [H|[= <-]]; [exact H | now apply Hm].
    + assert (Hc : ~ In c ps) by (intros H%Hm; congruence).
      split; [split|]; cbn [fst snd].
      * intros p. rewrite in_app_iff. destruct (decide (c = p)) as [<-|Hne].
        -- rewrite lookup_insert_eq. cbn. split; [intros _; right; now left | auto].
        -- rewrite lookup_insert_ne by exact Hne. rewrite Hm.
           split; [auto|]. intros [H|[H|[]]]; [exact H | contradiction].
      * now apply NoDup_snoc.
      * intros x. rewrite in_app_iff. split.
        -- intros [H|[<-|[]]]; auto.
        -- intros [H|[= <-]]; [auto | right; now left].
  - split; [split; assumption|]. cbn [snd]. intros x. split; [auto|].
    intros [H|H]; [exact H | discriminate].
Qed.

Lemma determine_fold_inv files : forall st,
  inv st ->
  inv (fold_left (determineStep delim prefixToCut) files st)
  /\ forall x, In x (snd (fold_left (determineStep delim prefixToCut) files st))
               <-> In x (snd st)
                   \/ exists file, In file files
                        /\ prefixCandidate delim prefixToCut file = Some x.
Proof.
  induction files as [|file files IH]; intros st Hst; cbn [fold_left].
  - split; [exact Hst|]. intros x. split; [auto|].
    intros [H|(f & [] & _)]; exact H.
  - destruct (determineStep_inv st file Hst) as [Hinv Hin].
    destruct (IH _ Hinv) as [Hinv' Hin']. split; [exact Hinv'|].
    intros x. rewrite Hin', Hin. split.
    + intros [[H|H]|(f & Hf & Hc)]; auto.
      * right. exists file. split; [now left | exact H].
      * right. exists f. split; [now right | exact Hc].
    + intros [H|(f & [<-|Hf] & Hc)]; auto. right. now exists f.
Qed.

End Regrouping.

(** X19. [DeterminePrefixesFromFilesWithDelimiter] returns every prefix
    once: the list has no duplicates, and a string is in it exactly when
    it is, for one of the paths, the part between [prefixToCut] and the
    last delimiter; a path that does not start with [prefixToCut] or has
    no delimiter after it contributes nothing. *)
Theorem determine_prefixes_distinct
    (fileList : list string) (delim prefixToCut : string) :
  List.NoDup (DeterminePrefixesFromFilesWithDelimiter fileList delim prefixToCut)
  /\ forall x,
       In x (DeterminePrefixesFromFilesWithDelimiter fileList delim prefixToCut)
       <-> exists file, In file fileList
             /\ prefixCandidate delim prefixToCut file = Some x.
Proof.
  unfold DeterminePrefixesFromFilesWithDelimiter.
  destruct (determine_fold_inv delim prefixToCut fileList (∅, []))
    as [[_ Hnd] Hin].
  { split; cbn [fst snd]; [|constructor].
    intros p. rewrite lookup_empty. cbn. split; [discriminate | intros []]. }
  split; [exact Hnd|]. intros x. rewrite Hin. cbn [snd]. split.
  - intros [[]|H]. exact H.
  - auto.
Qed.

Lemma determine_prefixes_distinct_witness :
  In "x" (DeterminePrefixesFromFilesWithDelimiter
            ["b/-x-y/"; "other"; "b/-x-z/"; "b/-w"] "-" "b/-").
Proof.
  apply (determine_prefixes_distinct ["b/-x-y/"; "other"; "b/-x-z/"; "b/-w"]
                                     "-" "b/-").
  exists "b/-x-z/". split; [right; right; now left | vm_compute; reflexivity].
Defined.

(** * Entries outside the prefixes, and paths without a directory *)

(** X20. Entries whose path does not start with [completePrefix] or with
    [prefixToCut] take no part in [AddDirsWithCommonPrefixes]: when no
    entry passes, nothing is read or added and the boolean is [true],
    also when the entries are files. *)
Theorem entries_outside_prefix_are_skipped
    {Error Server : Type} {T : Transport Error Server} (srv : Server)
    (acc : list string) (inputDirs : list FileInfo)
    (completePrefix prefixToCut parent : string) (fuel : nat) :
  (forall file, In file inputDirs ->
                passesFilter completePrefix prefixToCut parent file = false) ->
  AddDirsWithCommonPrefixes (S fuel) srv acc inputDirs completePrefix prefixToCut
                            parent
  = Some ((acc, true), None).
Proof.
  cbn [AddDirsWithCommonPrefixes]. generalize true as flag.
  induction inputDirs as [|file rest IH]; intros flag Hskip; [reflexivity|].
  cbn [addDirsLoop].
  pose proof (Hskip file (or_introl eq_refl)) as Hf. unfold passesFilter in Hf.
  destruct (HasPrefix (parent +:+ Name file +:+ "/") completePrefix);
    cbn [negb andb] in *.
  - destruct (CutPrefix (parent +:+ Name file +:+ "/") prefixToCut)
      as [commonPrefix found].
    cbn [snd] in Hf. subst found. cbn [negb].
    apply IH. intros f Hin. apply Hskip. now right.
  - apply IH. intros f Hin. apply Hskip. now right.
Qed.

Lemma entries_outside_prefix_are_skipped_witness :
  AddDirsWithCommonPrefixes 1 scenarioServer ["kept"]
    [mkFileInfo "a" false; mkFileInfo "cars" true]
    "backups/backups/my-app/" "backups/backups/" "elsewhere/"
  = Some ((["kept"], true), None).
Proof.
  apply (entries_outside_prefix_are_skipped scenarioServer ["kept"]
           [mkFileInfo "a" false; mkFileInfo "cars" true]
           "backups/backups/my-app/" "backups/backups/" "elsewhere/" 0).
  intros file [<-|[<-|[]]]; vm_compute; reflexivity.
Defined.

(** X21. For a storage path without "/", the parent directory of
    [DeleteObject] is the empty path: after the object is removed the
    empty path is listed and, when that listing is empty, the empty path
    is removed. *)
Theorem delete_object_without_directory
    {Error Server : Type} {T : Transport Error Server} (srv : Server)
    (w : WebDAVObjectStore) (bucket key : string) :
  let path := toStoragePath w bucket key in
  let srv1 := fst (Remove srv path) in
  ~ hasSeparator path ->
  Connect srv (root w) (user w) (password w) = None ->
  snd (Remove srv path) = None ->
  (forall file files, ReadDir srv1 EmptyString = (file :: files, None) ->
                      DeleteObject w srv bucket key = (srv1, None))
  /\ (ReadDir srv1 EmptyString = ([], None) ->
      DeleteObject w srv bucket key = Remove srv1 EmptyString).
Proof.
  intros path srv1 Hno Hconn Hrm. subst srv1. unfold DeleteObject.
  fold path. rewrite (SplitPath_without_separator path Hno), Hconn.
  destruct (Remove srv path) as [srv1 err]. cbn [fst snd] in *. subst err.
  split.
  - intros file files ->. reflexivity.
  - intros ->. cbn [List.length Z.of_nat Z.eqb].
    destruct (Remove srv1 EmptyString) as [srv2 [e|]]; reflexivity.
Qed.

Lemma bk_has_no_separator : ~ hasSeparator (toStoragePath dashStore "b" "k").
Proof.
  intros (a & b & H).
  exact (LastIndex_absent "b-k" "/" ltac:(vm_compute; reflexivity) a b H).
Qed.

Lemma delete_object_without_directory_witness :
  DeleteObject dashStore topLevelServer "b" "k" = (Mem.healthy [], None).
Proof.
  destruct (delete_object_without_directory (T := Mem.transport) topLevelServer
              dashStore "b" "k" bk_has_no_separator eq_refl eq_refl) as [_ H].
  exact (H eq_refl).
Defined.

(** X22. Below the listing root nothing is forgiven: with delimiter "/",
    when the first entry of the root listing is a directory that cannot
    be read, [ListCommonPrefixes] returns the empty list and the error
    of that read, also when the error is the not-found condition. *)
Theorem native_subdirectory_error_is_returned
    {Error Server : Type} {T : Transport Error Server} (srv : Server)
    (w : WebDAVObjectStore) (bucket prefix : string) (fuel : nat)
    (dir : FileInfo) (rest files : list FileInfo) (e : Error) :
  Connect srv (root w) (user w) (password w) = None ->
  ReadDir srv (listingRoot w bucket prefix "/") = (dir :: rest, None) ->
  IsDir dir = true ->
  ReadDir srv (listingRoot w bucket prefix "/" +:+ Name dir +:+ "/")
  = (files, Some e) ->
  ListCommonPrefixes (S fuel) w srv bucket prefix "/" = Some ([], Some e).
Proof.
  intros Hconn Hroot Hdir Hsub. unfold ListCommonPrefixes. rewrite Hconn.
  change (String.eqb "/" "/") with true. cbv iota.
  fold (normalizedPrefix prefix "/").
  change (bucketsDir w +:+ bucket +:+ "/" +:+ normalizedPrefix prefix "/")
    with (listingRoot w bucket prefix "/").
  rewrite Hroot. fold (cutPrefixOf w bucket "/").
  cbn [AddDirsWithCommonPrefixes addDirsLoop].
  rewrite HasPrefix_append. cbn [negb]. unfold CutPrefix.
  assert (Hcut : HasPrefix (listingRoot w bucket prefix "/" +:+ Name dir +:+ "/")
                           (cutPrefixOf w bucket "/") = true).
  { apply HasPrefix_extend. rewrite listingRoot_native. apply HasPrefix_append. }
  rewrite Hcut. cbn [negb]. rewrite Hdir, Hsub. reflexivity.
Qed.

Lemma native_subdirectory_error_is_returned_witness :
  ListCommonPrefixes 1 scenarioStore
    (Mem.mkServer (Mem.tree scenarioServer) false
                  [["backups"; "backups"; "my-app"; "cars"]] [])
    "backups" "my-app" "/"
  = Some ([], Some (Mem.Failure "forbidden")).
Proof.
  exact (native_subdirectory_error_is_returned (T := Mem.transport)
           (Mem.mkServer (Mem.tree scenarioServer) false
                         [["backups"; "backups"; "my-app"; "cars"]] [])
           scenarioStore "backups" "my-app" 0 (mkFileInfo "cars" true)
           [mkFileInfo "trains" true] [] (Mem.Failure "forbidden")
           eq_refl eq_refl eq_refl eq_refl).
Defined.
